(** * crank: the CycleGAN trainer and the training entry point

    A shallow embedding of [crank/net/trainer/trainer_cyclegan.py] and of
    [crank/bin/train.py].

    Tensors are nodes of the autograd graph the trainer builds: the loss
    functions below never look inside a tensor, they only apply library
    operations to it, so the value stored under a loss key is the expression
    the Python code evaluates.  Dictionaries are finite maps, Python
    exceptions are an explicit error result, and the calls of
    [random.choice] read a tape of draws. *)

From Stdlib Require Import ZArith List Ascii String.
From stdpp Require Import gmap strings pretty list fin_maps.

Open Scope string_scope.
Set Warnings "-clear-no-such-hyp".

(** ** Exceptions and results *)

Inductive exn : Type :=
| KeyError (key : string)
| IndexError
| UnboundLocalError (name : string)
| ValueError
| TypeError
| AssertionError (msg : string).

Inductive result (A : Type) : Type :=
| Ok (a : A)
| Raise (e : exn).
Arguments Ok {A} a.
Arguments Raise {A} e.

Global Instance result_ret : MRet result := fun _ a => Ok a.
Global Instance result_bind : MBind result := fun _ _ f m =>
  match m with
  | Ok a => f a
  | Raise e => Raise e
  end.

Global Instance result_fmap : FMap result := fun _ _ f m =>
  match m with
  | Ok a => Ok (f a)
  | Raise e => Raise e
  end.

(** [for x in xs: acc = body(x, acc)], stopping at the first exception. *)
Fixpoint for_each {A S} (xs : list A) (body : A -> S -> result S) (s : S)
  : result S :=
  match xs with
  | [] => Ok s
  | x :: xs' => s' ← body x s; for_each xs' body s'
  end.

(** [range(n)] for a Python integer [n]: empty when [n <= 0]. *)
Definition range (n : Z) : list nat := seq 0 (Z.to_nat n).

(** ** Tensors and scalar losses *)

Inductive dimspec : Type :=
| Dim (d : Z)          (* a literal extent, [-1] included *)
| SizeOf (axis : Z).   (* [x.size(axis)] of the tensor being reshaped *)

Inductive tensor : Type :=
| Input (name : string)                 (* a tensor of the batch *)
| GOut (name : string)                  (* a tensor computed by model["G"] *)
| Detach (x : tensor)                   (* x.detach() *)
| ModelD (x : tensor)                   (* self.model["D"](x) *)
| Transpose (x : tensor) (d0 d1 : Z)    (* x.transpose(d0, d1) *)
| Split (x : tensor) (sizes : list Z) (dim : Z) (i : nat)
                                        (* torch.split(x, sizes, dim)[i] *)
| MaskedSelect (x mask : tensor)        (* x.masked_select(mask) *)
| Reshape (x : tensor) (shape : list dimspec)
| OnesLike (x : tensor)
| ZerosLike (x : tensor)
| Cat (x y : tensor).                   (* torch.cat along the feature axis *)

Inductive scalar : Type :=
| Const (name : string)                    (* a number held elsewhere *)
| Criterion (name : string) (x y : tensor) (* self.criterion[name](x, y) *)
| Add (a b : scalar)
| Mul (a b : scalar).

(** Whether backpropagating from a node reaches the parameters of the
    generator.  [detach] cuts the path; [ones_like] and [zeros_like] build
    a constant from the shape of their argument, and [masked_select] is
    differentiable in the selected tensor only, not in the boolean mask;
    the other operations pass the gradient on to their tensor
    arguments. *)
Fixpoint reaches_G (t : tensor) : bool :=
  match t with
  | Input _ => false
  | GOut _ => true
  | Detach _ => false
  | OnesLike _ | ZerosLike _ => false
  | ModelD x | Transpose x _ _ | Split x _ _ _ | Reshape x _
  | MaskedSelect x _ => reaches_G x
  | Cat x y => reaches_G x || reaches_G y
  end.

Fixpoint grad_reaches_G (s : scalar) : bool :=
  match s with
  | Const _ => false
  | Criterion _ x y => reaches_G x || reaches_G y
  | Add a b | Mul a b => grad_reaches_G a || grad_reaches_G b
  end.

Global Instance dimspec_eq_dec : EqDecision dimspec.
Proof. solve_decision. Defined.
Global Instance tensor_eq_dec : EqDecision tensor.
Proof. unfold EqDecision, Decision. decide equality; solve_decision. Defined.
Global Instance scalar_eq_dec : EqDecision scalar.
Proof. unfold EqDecision, Decision. decide equality; solve_decision. Defined.

(** Sub-term test on scalar expressions: [s] takes part in [t]. *)
Fixpoint occurs_in (s t : scalar) : bool :=
  bool_decide (s = t) ||
  match t with
  | Add a b | Mul a b => occurs_in s a || occurs_in s b
  | _ => false
  end.

(** ** Batch, cycle outputs, configuration, loss accumulator *)

Record batch : Type := {
  in_feats : tensor;
  decoder_mask : tensor;
  cycle_decoder_mask : tensor;
  org_h : tensor;
  cv_h : tensor
}.

(** [batch[f"{io}_h"]] *)
Definition batch_h (b : batch) (io : string) : result tensor :=
  if String.eqb io "org" then Ok (org_h b)
  else if String.eqb io "cv" then Ok (cv_h b)
  else Raise (KeyError (io +:+ "_h")).

Record branch_out : Type := {
  decoded : tensor;
  others : gmap string tensor
}.

Record cycle_out : Type := {
  out_org : branch_out;
  out_cv : branch_out
}.

(** [outputs[c]] *)
Definition getitem {A} (xs : list A) (i : nat) : result A :=
  match xs !! i with
  | Some x => Ok x
  | None => Raise IndexError
  end.

(** [o[io]] for one cycle record *)
Definition branch_of (o : cycle_out) (io : string) : result branch_out :=
  if String.eqb io "org" then Ok (out_org o)
  else if String.eqb io "cv" then Ok (out_cv o)
  else Raise (KeyError io).

Record alpha_conf : Type := {
  alpha_adv : scalar;
  alpha_acgan : scalar;
  alpha_fake : scalar;
  alpha_real : scalar
}.

Record trainer_conf : Type := {
  n_cycles : Z;
  acgan_flag : bool;
  use_real_only_acgan : bool;
  use_spkradv_training : bool;
  alpha : alpha_conf
}.

(** [loss[k] = v] *)
Definition setitem (k : string) (v : scalar) (loss : gmap string scalar)
  : gmap string scalar := <[k := v]> loss.

(** [loss[k]] *)
Definition lookup_loss (k : string) (loss : gmap string scalar) : result scalar :=
  match loss !! k with
  | Some v => Ok v
  | None => Raise (KeyError k)
  end.

(** [loss[k] += v]: the old value is read first. *)
Definition iadd (k : string) (v : scalar) (loss : gmap string scalar)
  : result (gmap string scalar) :=
  old ← lookup_loss k loss;
  Ok (<[k := Add old v]> loss).

(** [loss[k] += w * loss[k2]]: Python reads [loss[k]] before it evaluates
    the right-hand side. *)
Definition iadd_weighted (k : string) (w : scalar) (k2 : string)
    (loss : gmap string scalar) : result (gmap string scalar) :=
  old ← lookup_loss k loss;
  v ← lookup_loss k2 loss;
  Ok (<[k := Add old (Mul w v)]> loss).

(** A small Python [dict] whose iteration order matters: the pairs in
    insertion order.  [dict_set] is only used on a key that is present. *)
Definition dict_get {V} (k : string) (d : list (string * V)) : result V :=
  match list_find (fun kv => fst kv = k) d with
  | Some (_, kv) => Ok (snd kv)
  | None => Raise (KeyError k)
  end.

Definition dict_set {V} (k : string) (v : V) (d : list (string * V))
  : list (string * V) :=
  map (fun kv => if decide (fst kv = k) then (k, v) else kv) d.

(** ** The [random] module

    The state of the generator is the sequence of raw draws it will
    produce and the number of draws taken so far.  [random.choice(xs)]
    takes one draw and returns the element it selects; an empty sequence
    raises [IndexError]. *)
Record rng : Type := {
  tape : nat -> nat;
  pos : nat
}.

Definition random_choice {A} (xs : list A) (g : rng) : result (A * rng) :=
  x ← getitem xs (tape g (pos g) mod length xs);
  Ok (x, {| tape := tape g; pos := S (pos g) |}).

(** ** The trainer object

    [CycleGANTrainer] inherits from [LSGANTrainer], which is defined outside
    the two files embedded here.  The attributes and methods it inherits
    and calls are the fields of the record: each inherited method is a
    parameter of the development.  [step_model] is observed through the
    trace of its calls. *)

Inductive event : Type :=
| StepModel (model : string) (loss : gmap string scalar).

Record trainer : Type := {
  conf : trainer_conf;
  n_spkrs : Z;
  stop_generator : bool;
  (* self._get_enc_h(batch, use_cvfeats) *)
  get_enc_h : batch -> bool -> tensor;
  (* self._get_dec_h(batch, use_cvfeats) *)
  get_dec_h : batch -> bool -> tensor * tensor;
  (* self.model["G"].cycle_forward(feats, enc_h, dec_h, enc_h_cv, dec_h_cv,
     spkrvec, spkrvec_cv) *)
  cycle_forward :
    tensor -> tensor -> tensor -> tensor -> tensor -> tensor -> tensor ->
    list cycle_out;
  (* self.get_D_inputs(batch, x, label) *)
  get_D_inputs : batch -> tensor -> string -> tensor;
  calculate_vqvae_loss :
    batch -> branch_out -> gmap string scalar -> result (gmap string scalar);
  calculate_cyclevqvae_loss :
    batch -> list cycle_out -> gmap string scalar ->
    result (gmap string scalar);
  (* self.calculate_spkradv_loss(batch, outputs, loss, phase) *)
  calculate_spkradv_loss :
    batch -> branch_out -> gmap string scalar -> string ->
    result (gmap string scalar)
}.

Module CycleGANTrainer.

(** [return_sample], the local helper of both loss functions. *)
Definition return_sample (x : tensor) : tensor :=
  Transpose (ModelD (Transpose x 1 2)) 1 2.

(** [f"{c}cyc_{io}"] *)
Definition cyc_io_label (c : nat) (io : string) : string :=
  pretty c +:+ "cyc_" +:+ io.

(** [f"{c}cyc"] *)
Definition cyc_label (c : nat) : string := pretty c +:+ "cyc".

(** One pass through the body of the inner loop of
    [calculate_cycleadv_loss]. *)
Definition cycleadv_step (self : trainer) (b : batch)
    (outputs : list cycle_out) (mask : tensor) (c : nat) (io : string)
    (loss : gmap string scalar) : result (gmap string scalar) :=
  let lbl := cyc_io_label c io in
  o ← getitem outputs c;
  br ← branch_of o io;
  let D_inputs := get_D_inputs self b (decoded br) "cv" in
  let D_outputs := return_sample D_inputs in
  '(D_outputs, loss) ←
    (if acgan_flag (conf self) then
       let parts := Split D_outputs [1%Z; n_spkrs self] 2 in
       let spkr_cls := parts 1%nat in
       let D_outputs := MaskedSelect (parts 0%nat) mask in
       h ← batch_h b io;
       let loss :=
         setitem ("D_acgan_adv_" +:+ lbl)
           (Criterion "ce" (Reshape spkr_cls [Dim (-1); SizeOf 2])
              (Reshape h [Dim (-1)])) loss in
       loss ← iadd_weighted "G" (alpha_acgan (alpha (conf self)))
                ("D_acgan_adv_" +:+ lbl) loss;
       Ok (D_outputs, loss)
     else Ok (D_outputs, loss));
  let loss :=
    setitem ("D_adv_" +:+ lbl)
      (Criterion "mse" D_outputs (OnesLike D_outputs)) loss in
  iadd_weighted "G" (alpha_adv (alpha (conf self))) ("D_adv_" +:+ lbl) loss.

Definition calculate_cycleadv_loss (self : trainer) (b : batch)
    (outputs : list cycle_out) (loss : gmap string scalar)
  : result (gmap string scalar) :=
  let mask := decoder_mask b in
  for_each (range (n_cycles (conf self)))
    (fun c loss =>
       for_each ["org"; "cv"]
         (fun io loss => cycleadv_step self b outputs mask c io loss) loss)
    loss.

(** The body of [if self.conf["acgan_flag"]: for k in sample.keys(): ...]
    of [calculate_cycle_discriminator_loss] for one key [k]. *)
Definition discriminator_acgan_step (self : trainer) (b : batch)
    (lbl : string) (k : string)
    (st : list (string * tensor) * gmap string scalar)
  : result (list (string * tensor) * gmap string scalar) :=
  let '(sample, loss) := st in
  let h := if bool_decide (k ∈ ["real"; "org_fake"]) then org_h b
           else cv_h b in
  x ← dict_get k sample;
  let parts := Split x [1%Z; n_spkrs self] 2 in
  let sample := dict_set k (parts 0%nat) sample in
  let spkr_cls := parts 1%nat in
  let key := "D_ce_" +:+ k +:+ "_" +:+ lbl in
  let loss :=
    setitem key
      (Criterion "ce" (Reshape spkr_cls [Dim (-1); SizeOf 2])
         (Reshape h [Dim (-1)])) loss in
  loss ←
    (if negb (use_real_only_acgan (conf self) && String.eqb k "org_fake")
     then iadd_weighted "D" (alpha_acgan (alpha (conf self))) key loss
     else Ok loss);
  Ok (sample, loss).

(** One pass through the body of the loop of
    [calculate_cycle_discriminator_loss]. *)
Definition discriminator_step (self : trainer) (b : batch)
    (outputs : list cycle_out) (c : nat) (st : gmap string scalar * rng)
  : result (gmap string scalar * rng) :=
  let '(loss, g) := st in
  let lbl := cyc_label c in
  let real_inputs := get_D_inputs self b (in_feats b) "org" in
  o ← getitem outputs 0;
  org ← branch_of o "org";
  let org_fake_inputs :=
    get_D_inputs self b (Detach (decoded org)) "org" in
  o ← getitem outputs 0;
  cv ← branch_of o "cv";
  let cv_fake_inputs :=
    get_D_inputs self b (Detach (decoded cv)) "cv" in
  let sample :=
    [("real", return_sample real_inputs);
     ("org_fake", return_sample org_fake_inputs);
     ("cv_fake", return_sample cv_fake_inputs)] in
  '(sample, loss) ←
    (if acgan_flag (conf self) then
       for_each (map fst sample) (discriminator_acgan_step self b lbl)
         (sample, loss)
     else Ok (sample, loss));
  real ← dict_get "real" sample;
  let real_sample := MaskedSelect real (decoder_mask b) in
  let loss :=
    setitem ("D_real_" +:+ lbl)
      (Criterion "mse" real_sample (OnesLike real_sample)) loss in
  '(fake_key, g) ← random_choice ["org_fake"; "cv_fake"] g;
  let mask := if String.eqb fake_key "org_fake"
              then cycle_decoder_mask b else decoder_mask b in
  fake ← dict_get fake_key sample;
  let fake_sample := MaskedSelect fake mask in
  let loss :=
    setitem ("D_fake_" +:+ lbl)
      (Criterion "mse" fake_sample (ZerosLike fake_sample)) loss in
  old ← lookup_loss "D" loss;
  f ← lookup_loss ("D_fake_" +:+ lbl) loss;
  r ← lookup_loss ("D_real_" +:+ lbl) loss;
  Ok (<["D" := Add old (Add (Mul (alpha_fake (alpha (conf self))) f)
                            (Mul (alpha_real (alpha (conf self))) r))]> loss,
      g).

Definition calculate_cycle_discriminator_loss (self : trainer) (b : batch)
    (outputs : list cycle_out) (loss : gmap string scalar) (g : rng)
  : result (gmap string scalar * rng) :=
  for_each (range (n_cycles (conf self)))
    (discriminator_step self b outputs) (loss, g).

(** [self.step_model(loss, model=m)]: the inherited method (the backward
    pass and the optimizer step) is outside the files embedded here; what
    is recorded is the call, with the model and the losses it receives. *)
Definition step_model (loss : gmap string scalar) (m : string) : list event :=
  [StepModel m loss].

Definition update_G (self : trainer) (b : batch) (loss : gmap string scalar)
    (phase : string) : result (gmap string scalar * list event) :=
  let enc_h := get_enc_h self b false in
  let enc_h_cv := get_enc_h self b true in
  let '(dec_h, spkrvec) := get_dec_h self b false in
  let '(dec_h_cv, spkrvec_cv) := get_dec_h self b true in
  let feats := in_feats b in
  let cycle_outputs :=
    cycle_forward self feats enc_h dec_h enc_h_cv dec_h_cv spkrvec
      spkrvec_cv in
  o ← getitem cycle_outputs 0;
  org ← branch_of o "org";
  loss ← calculate_vqvae_loss self b org loss;
  loss ← calculate_cyclevqvae_loss self b cycle_outputs loss;
  loss ←
    (if use_spkradv_training (conf self) then
       o ← getitem cycle_outputs 0;
       org ← branch_of o "org";
       calculate_spkradv_loss self b org loss phase
     else Ok loss);
  loss ← calculate_cycleadv_loss self b cycle_outputs loss;
  if String.eqb phase "train" && negb (stop_generator self)
  then Ok (loss, step_model loss "G")
  else Ok (loss, []).

Definition update_D (self : trainer) (b : batch) (loss : gmap string scalar)
    (phase : string) (g : rng)
  : result (gmap string scalar * list event * rng) :=
  let enc_h := get_enc_h self b false in
  let enc_h_cv := get_enc_h self b true in
  let '(dec_h, spkrvec) := get_dec_h self b false in
  let '(dec_h_cv, spkrvec_cv) := get_dec_h self b true in
  let feats := in_feats b in
  let outputs :=
    cycle_forward self feats enc_h dec_h enc_h_cv dec_h_cv spkrvec
      spkrvec_cv in
  '(loss, g) ← calculate_cycle_discriminator_loss self b outputs loss g;
  if String.eqb phase "train"
  then Ok (loss, step_model loss "D", g)
  else Ok (loss, [], g).

End CycleGANTrainer.

(** ** [crank/bin/train.py] *)

(** The options [get_model] reads from the configuration dictionary.  The
    dictionary comes from a YAML file that defines every option, so the
    options are the fields of a record. *)
Record model_conf : Type := {
  mc_use_spkradv_training : bool;
  mc_use_spkr_classifier : bool;
  input_size : Z;
  spkr_classifier_kernel_size : Z;
  n_spkr_classifier_layers : Z;
  trainer_type : string;
  use_D_uv : bool;
  use_D_spkrcode : bool;
  use_spkr_embedding : bool;
  spkr_embedding_size : Z;
  gan_type : string;
  mc_acgan_flag : bool;
  use_residual_network : bool;
  discriminator_kernel_size : Z;
  n_discriminator_layers : Z;
  n_discriminator_stacks : Z;
  discriminator_dropout : string;   (* a float literal, kept as written *)
  feature_label : string            (* conf["feature"]["label"] *)
}.

(** The value passed as [layers=]: an integer, or what [n * [s]] builds. *)
Inductive layers_arg : Type :=
| LayersInt (n : Z)
| LayersList (l : list string).

(** The network classes are defined in other modules; a network is the
    record of the constructor call that made it and of the device it was
    moved to. *)
Inductive network : Type :=
| VQVAE2 (conf : model_conf) (spkr_size : Z) (scaler : option string)
| SpeakerAdversarialNetwork (conf : model_conf) (spkr_size : Z)
| ParallelWaveGANDiscriminator
    (in_channels out_channels kernel_size : Z) (layers : layers_arg)
    (conv_channels dilation_factor : Z) (nonlinear_activation : string)
    (negative_slope : string) (bias use_weight_norm : bool)
| ResidualParallelWaveGANDiscriminator
    (in_channels out_channels kernel_size layers stacks : Z)
    (dropout : string)
| To (n : network) (device : string).

(** Running a constructor on its evaluated arguments.
    [ParallelWaveGANDiscriminator] counts its convolution layers with
    [range(layers - 1)], so a list in the place of [layers] ends in
    [TypeError].  The other calls return the network they describe. *)
Definition construct (call : network) : result network :=
  match call with
  | ParallelWaveGANDiscriminator _ _ _ (LayersList _) _ _ _ _ _ _ =>
      Raise TypeError
  | _ => Ok call
  end.

(** Reading a local variable that may not have been assigned. *)
Definition read_local {A} (name : string) (v : option A) : result A :=
  match v with
  | Some a => Ok a
  | None => Raise (UnboundLocalError name)
  end.

(** [n * [s]] for a Python integer [n] *)
Definition list_repeat (n : Z) (s : string) : list string :=
  repeat s (Z.to_nat n).

(** The discriminator part of [get_model] up to the constructor call: the
    class and the evaluated keyword arguments of [D = ...(...)]. *)
Definition discriminator_call (conf : model_conf) (spkr_size : Z)
  : result network :=
  let input_channels := input_size conf in
  let input_channels :=
    if use_D_uv conf then (input_channels + 1)%Z else input_channels in
  let input_channels :=
    if use_D_spkrcode conf then
      if negb (use_spkr_embedding conf)
      then (input_channels + spkr_size)%Z
      else (input_channels + spkr_embedding_size conf)%Z
    else input_channels in
  let output_channels : option Z :=
    if String.eqb (gan_type conf) "lsgan" then Some 1%Z else None in
  output_channels ←
    (if mc_acgan_flag conf then
       oc ← read_local "output_channels" output_channels;
       Ok (Some (oc + spkr_size)%Z)
     else Ok output_channels);
  if use_residual_network conf then
    oc ← read_local "output_channels" output_channels;
    Ok (ResidualParallelWaveGANDiscriminator input_channels oc
          (discriminator_kernel_size conf)
          (n_discriminator_layers conf * n_discriminator_stacks conf)%Z
          (n_discriminator_stacks conf)
          (discriminator_dropout conf))
  else
    oc ← read_local "output_channels" output_channels;
    Ok (ParallelWaveGANDiscriminator input_channels oc
          (discriminator_kernel_size conf)
          (LayersList (list_repeat (n_discriminator_layers conf)
                         "n_discriminator_stacks"))
          64 1 "LeakyReLU" "0.2" true true).

Definition get_model (conf : model_conf) (spkr_size : Z) (device : string)
    (scaler : option string) : result (gmap string network) :=
  G ← construct (VQVAE2 conf spkr_size scaler);
  let models : gmap string network := {[ "G" := To G device ]} in
  (* speaker adversarial network *)
  models ←
    (if mc_use_spkradv_training conf then
       SPKRADV ← construct (SpeakerAdversarialNetwork conf spkr_size);
       Ok (<["SPKRADV" := To SPKRADV device]> models)
     else Ok models);
  (* spkr classifier network *)
  models ←
    (if mc_use_spkr_classifier conf then
       C ← construct
             (ParallelWaveGANDiscriminator (input_size conf) spkr_size
                (spkr_classifier_kernel_size conf)
                (LayersInt (n_spkr_classifier_layers conf))
                64 1 "LeakyReLU" "0.2" true true);
       Ok (<["C" := To C device]> models)
     else Ok models);
  (* discriminator *)
  if bool_decide (trainer_type conf ∈ ["lsgan"; "cyclegan"; "stargan"]) then
    call ← discriminator_call conf spkr_size;
    D ← construct call;
    Ok (<["D" := To D device]> models)
  else Ok models.

(** A module of the live collection: its architecture and its current
    parameters.  [load_state_dict] replaces the parameters. *)
Record module (P : Type) : Type := {
  arch : network;
  state : P
}.
Arguments arch {P} m.
Arguments state {P} m.

Definition load_state_dict {P} (m : module P) (p : P) : module P :=
  {| arch := arch m; state := p |}.

(** What [torch.load] returns for a checkpoint file. *)
Record checkpoint_record (P : Type) : Type := {
  ckpt_model : gmap string P;   (* state_dict["model"] *)
  ckpt_steps : Z                (* state_dict["steps"] *)
}.
Arguments ckpt_model {P} c.
Arguments ckpt_steps {P} c.

(** [d[k]] on a dictionary *)
Definition map_getitem {V} (d : gmap string V) (k : string) : result V :=
  match d !! k with
  | Some v => Ok v
  | None => Raise (KeyError k)
  end.

(** [load_checkpoint(model, checkpoint)], after [torch.load] has read the
    record [state_dict] from the file. *)
Definition load_checkpoint {P} (model : gmap string (module P))
    (state_dict : checkpoint_record P)
  : result (gmap string (module P) * Z) :=
  g ← map_getitem model "G";
  pg ← map_getitem (ckpt_model state_dict) "G";
  let model := <["G" := load_state_dict g pg]> model in
  model ←
    for_each ["D"; "C"; "SPKRADV"]
      (fun m model =>
         if bool_decide (m ∈ dom (ckpt_model state_dict))
            && bool_decide (m ∈ dom model)
         then
           x ← map_getitem model m;
           p ← map_getitem (ckpt_model state_dict) m;
           Ok (<[m := load_state_dict x p]> model)
         else Ok model)
      model;
  Ok (model, ckpt_steps state_dict).

(** *** The entry point

    [main] talks to the file system, to CUDA and to the rest of the
    package.  Each such call is an event of the trace [main] leaves behind,
    in program order; what the call returns is read from the [world].
    Calls of [logging.info] are not recorded. *)

Record cli_args : Type := {
  flag : string;
  n_jobs : Z;
  conf_path : string;
  checkpoint : option string;   (* [None] when the option is absent *)
  scpdir : string;
  featdir : string;
  featsscp : option string;
  expdir : string
}.

Inductive io_event : Type :=
| LoadYaml (path : string)
| OpenScpdir (path : string)
| OpenFeatsscp (path : option string)
| Mkdir (path : string)
| JoblibLoad (path : string)
| BuildModel (device : string)
| Glob (dir pattern : string)
| TorchLoad (path : option string)
| GetOptimizer
| GetCriterion
| GetDataloader (flag : string) (n_jobs : Z)
| GetScheduler
| NewSummaryWriter (logdir : string)
| TrainerRun (trainer_type flag : string).

Record world (P : Type) : Type := {
  cuda_is_available : bool;                 (* torch.cuda.is_available() *)
  load_yaml : string -> model_conf;
  n_train_spkrs : string -> Z;              (* len(open_scpdir(p)["spkrs"]) *)
  path_stem : string -> string;             (* Path(p).stem *)
  glob : string -> string -> list string;   (* list(Path(d).glob(pat)) *)
  first_number : string -> result Z;        (* int(re.findall("[0-9]+", s)[0]) *)
  torch_load : option string -> result (checkpoint_record P);
  initial_state : network -> P
}.
Arguments cuda_is_available {P} w.
Arguments load_yaml {P} w.
Arguments n_train_spkrs {P} w.
Arguments path_stem {P} w.
Arguments glob {P} w.
Arguments first_number {P} w.
Arguments torch_load {P} w.
Arguments initial_state {P} w.

(** Computations that leave a trace, also when they raise. *)
Definition io (A : Type) : Type := list io_event -> list io_event * result A.

Global Instance io_ret : MRet io := fun _ a tr => (tr, Ok a).
Global Instance io_bind : MBind io := fun _ _ f m tr =>
  match m tr with
  | (tr', Ok a) => f a tr'
  | (tr', Raise e) => (tr', Raise e)
  end.

Definition emit (e : io_event) : io unit := fun tr => ((tr ++ [e])%list, Ok tt).
Definition lift {A} (r : result A) : io A := fun tr => (tr, r).
Definition py_assert (c : bool) (msg : string) : io unit :=
  if c then mret tt else lift (Raise (AssertionError msg)).

Fixpoint io_for {A} (xs : list A) (body : A -> io unit) : io unit :=
  match xs with
  | [] => mret tt
  | x :: xs' => _ ← body x; io_for xs' body
  end.

(** [str(torch.device(name))] for the two names [main] builds *)
Definition torch_device (name : string) : string := name.

(** [Path(a) / b], as a string, for a directory [a] written without a
    trailing slash and a relative [b]; [pathlib] normalises the other
    spellings, which only changes how a path reads inside an event. *)
Definition path_join (a b : string) : string := a +:+ "/" +:+ b.

(** [max] of a list of integers *)
Definition list_max_Z (xs : list Z) : result Z :=
  match xs with
  | [] => Raise ValueError
  | x :: xs' => Ok (foldr Z.max x xs')
  end.

(** [s1 in s2] on strings *)
Definition contains (s1 s2 : string) : bool :=
  match String.index 0 s1 s2 with Some _ => true | None => false end.

Definition run_load_checkpoint {P} (w : world P)
    (model : gmap string (module P)) (path : option string)
  : io (gmap string (module P) * Z) :=
  _ ← emit (TorchLoad path);
  state_dict ← lift (torch_load w path);
  lift (load_checkpoint model state_dict).

Definition main {P} (w : world P) (args : cli_args) : io unit :=
  let device :=
    torch_device (if cuda_is_available w then "cuda" else "cpu") in
  _ ← py_assert (String.eqb device "cuda") "ERROR: Do not accept CPU training.";
  (* load configure files *)
  _ ← emit (LoadYaml (conf_path args));
  let conf := load_yaml w (conf_path args) in
  (* load scp *)
  let featdir := path_join (featdir args) (feature_label conf) in
  _ ← io_for ["train"; "dev"; "eval"] (fun phase =>
         _ ← emit (OpenScpdir (path_join (scpdir args) phase));
         emit (OpenFeatsscp
                 (Some (path_join (path_join featdir phase) "feats.scp"))));
  _ ← (if String.eqb (flag args) "eval"
            && negb (bool_decide (featsscp args = Some "None"))
       then emit (OpenFeatsscp (featsscp args))
       else mret tt);
  let expdir' := path_join (expdir args) (path_stem w (conf_path args)) in
  _ ← emit (Mkdir expdir');
  let spkr_size := n_train_spkrs w (path_join (scpdir args) "train") in
  (* load model *)
  _ ← emit (JoblibLoad (path_join featdir "scaler.pkl"));
  let scaler := Some (path_join featdir "scaler.pkl") in
  _ ← emit (BuildModel device);
  nets ← lift (get_model conf spkr_size device scaler);
  let model : gmap string (module P) :=
    (fun n => {| arch := n; state := initial_state w n |}) <$> nets in
  '(model, resume) ←
    (if negb (bool_decide (checkpoint args = Some "None")) then
       run_load_checkpoint w model (checkpoint args)
     else if bool_decide (flag args ∈ ["reconstruction"; "eval"]) then
       _ ← emit (Glob expdir' "checkpoint_*steps.pkl");
       let pkls := glob w expdir' "checkpoint_*steps.pkl" in
       steps ← lift (for_each pkls
                 (fun p acc => s ← first_number w (path_stem w p);
                               Ok (acc ++ [s])%list) []);
       max_step ← lift (list_max_Z steps);
       ckpt ← lift (getitem
                 (filter (fun p => contains (pretty max_step) p = true) pkls)
                 0);
       run_load_checkpoint w model (Some ckpt)
     else mret (model, 0%Z));
  _ ← lift (map_getitem model "G");
  (* load others *)
  _ ← emit GetOptimizer;
  _ ← emit GetCriterion;
  _ ← emit (GetDataloader (flag args) (n_jobs args));
  _ ← emit GetScheduler;
  _ ← emit (NewSummaryWriter
              (expdir args +:+ "/runs/train-" +:+ path_stem w (conf_path args)));
  _ ← emit (NewSummaryWriter
              (expdir args +:+ "/runs/dev-" +:+ path_stem w (conf_path args)));
  emit (TrainerRun (trainer_type conf) (flag args)).

(** * Statements

    Definitions used to state the properties of the code: the digits test
    on label strings, example inputs, and the readings of the properties
    that the code does not satisfy. *)

Definition is_digit (a : ascii) : bool :=
  bool_decide (a ∈ ["0"; "1"; "2"; "3"; "4"; "5"; "6"; "7"; "8"; "9"]%char).

Fixpoint all_digits (s : string) : bool :=
  match s with
  | EmptyString => true
  | String a s' => is_digit a && all_digits s'
  end.

(** ** Example inputs *)

Definition ex_model_conf (gan : string) (residual acgan : bool) : model_conf :=
  {| mc_use_spkradv_training := false;
     mc_use_spkr_classifier := true;
     input_size := 80;
     spkr_classifier_kernel_size := 5;
     n_spkr_classifier_layers := 4;
     trainer_type := "cyclegan";
     use_D_uv := true;
     use_D_spkrcode := false;
     use_spkr_embedding := false;
     spkr_embedding_size := 32;
     gan_type := gan;
     mc_acgan_flag := acgan;
     use_residual_network := residual;
     discriminator_kernel_size := 5;
     n_discriminator_layers := 3;
     n_discriminator_stacks := 2;
     discriminator_dropout := "0.3";
     feature_label := "mlfb" |}.

Definition ex_module (name : string) (p : nat) : module nat :=
  {| arch := To (SpeakerAdversarialNetwork (ex_model_conf "lsgan" false false) 2)
                name;
     state := p |}.

(** A live collection with a generator and a discriminator. *)
Definition ex_collection : gmap string (module nat) :=
  {[ "G" := ex_module "g" 0; "D" := ex_module "d" 1 ]}.

(** A record saved without the generator. *)
Definition ex_record_no_G : checkpoint_record nat :=
  {| ckpt_model := {[ "D" := 11 ]}; ckpt_steps := 1000 |}.

(** A record with a generator and a classifier. *)
Definition ex_record : checkpoint_record nat :=
  {| ckpt_model := {[ "G" := 10; "C" := 12 ]}; ckpt_steps := 2000 |}.

(** A collection and a record that share a role outside the four that
    [load_checkpoint] names. *)
Definition ex_collection_extra : gmap string (module nat) :=
  {[ "G" := ex_module "g" 0; "P" := ex_module "p" 3 ]}.

Definition ex_record_extra : checkpoint_record nat :=
  {| ckpt_model := {[ "G" := 10; "P" := 13 ]}; ckpt_steps := 3000 |}.

(** The reading of the checkpoint rule in which every role, the generator
    included, is loaded when it is on both sides and skipped otherwise. *)
Definition loads_common_roles {P} (model : gmap string (module P))
    (record : checkpoint_record P) : Prop :=
  ∃ model',
    load_checkpoint model record = Ok (model', ckpt_steps record) ∧
    ∀ role,
      model' !! role =
      match model !! role, ckpt_model record !! role with
      | Some m, Some p => Some (load_state_dict m p)
      | o, _ => o
      end.

Definition ex_args (f : string) : cli_args :=
  {| flag := f; n_jobs := 4; conf_path := "conf/default.yml";
     checkpoint := Some "None"; scpdir := "data/scp"; featdir := "data/feats";
     featsscp := Some "None"; expdir := "exp" |}.

Definition ex_world (cuda : bool) : world nat :=
  {| cuda_is_available := cuda;
     load_yaml := fun _ => ex_model_conf "lsgan" true false;
     n_train_spkrs := fun _ => 2%Z;
     path_stem := fun _ => "default";
     glob := fun _ _ => [];
     first_number := fun _ => Ok 0%Z;
     torch_load := fun _ => Ok ex_record;
     initial_state := fun _ => 0 |}.

(** The role [m] of the optional list, as [load_checkpoint] treats it. *)
Definition load_role {P} (record : checkpoint_record P) (m : string)
    (model : gmap string (module P)) : gmap string (module P) :=
  match model !! m, ckpt_model record !! m with
  | Some x, Some p => <[m := load_state_dict x p]> model
  | _, _ => model
  end.

(** The same trainer with another value of [self.stop_generator]. *)
Definition with_stop_generator (s : bool) (self : trainer) : trainer :=
  {| conf := conf self;
     n_spkrs := n_spkrs self;
     stop_generator := s;
     get_enc_h := get_enc_h self;
     get_dec_h := get_dec_h self;
     cycle_forward := cycle_forward self;
     get_D_inputs := get_D_inputs self;
     calculate_vqvae_loss := calculate_vqvae_loss self;
     calculate_cyclevqvae_loss := calculate_cyclevqvae_loss self;
     calculate_spkradv_loss := calculate_spkradv_loss self |}.

(** ** The cyclic adversarial loss, term by term *)

(** What the discriminator returns for the decoded output of one branch,
    conditioned with the label ["cv"]. *)
Definition adv_input (self : trainer) (b : batch) (br : branch_out) : tensor :=
  CycleGANTrainer.return_sample (get_D_inputs self b (decoded br) "cv").

(** The tensor compared with ones: with [acgan_flag] the validity channel
    restricted by [decoder_mask], without it the whole output. *)
Definition adv_operand (self : trainer) (b : batch) (br : branch_out) : tensor :=
  if acgan_flag (conf self)
  then MaskedSelect (Split (adv_input self b br) [1%Z; n_spkrs self] 2 0)
         (decoder_mask b)
  else adv_input self b br.

Definition adv_term (self : trainer) (b : batch) (br : branch_out) : scalar :=
  Criterion "mse" (adv_operand self b br) (OnesLike (adv_operand self b br)).

Definition acgan_adv_term (self : trainer) (b : batch) (br : branch_out)
    (h : tensor) : scalar :=
  Criterion "ce"
    (Reshape (Split (adv_input self b br) [1%Z; n_spkrs self] 2 1)
       [Dim (-1); SizeOf 2])
    (Reshape h [Dim (-1)]).

(** The total ["G"] after the terms of one branch were added to [g]. *)
Definition G_after_branch (self : trainer) (b : batch) (br : branch_out)
    (h : tensor) (g : scalar) : scalar :=
  Add (if acgan_flag (conf self)
       then Add g (Mul (alpha_acgan (alpha (conf self)))
                     (acgan_adv_term self b br h))
       else g)
      (Mul (alpha_adv (alpha (conf self))) (adv_term self b br)).

Definition G_after_cycle (self : trainer) (b : batch) (g : scalar)
    (o : cycle_out) : scalar :=
  G_after_branch self b (out_cv o) (cv_h b)
    (G_after_branch self b (out_org o) (org_h b) g).

(** The keys written for cycle [c]. *)
Definition adv_keys (acgan : bool) (c : nat) : list string :=
  flat_map
    (fun io =>
       (if acgan then ["D_acgan_adv_" +:+ CycleGANTrainer.cyc_io_label c io]
        else [])
       ++ ["D_adv_" +:+ CycleGANTrainer.cyc_io_label c io])%list
    ["org"; "cv"].

(** The accumulator after one branch and after one cycle. *)
Definition adv_branch_result (self : trainer) (b : batch) (br : branch_out)
    (h : tensor) (c : nat) (io : string) (g : scalar)
    (l : gmap string scalar) : gmap string scalar :=
  let lbl := CycleGANTrainer.cyc_io_label c io in
  let l1 :=
    if acgan_flag (conf self)
    then <["G" := Add g (Mul (alpha_acgan (alpha (conf self)))
                           (acgan_adv_term self b br h))]>
           (<["D_acgan_adv_" +:+ lbl := acgan_adv_term self b br h]> l)
    else l in
  <["G" := G_after_branch self b br h g]>
    (<["D_adv_" +:+ lbl := adv_term self b br]> l1).

Definition adv_cycle_result (self : trainer) (b : batch) (o : cycle_out)
    (c : nat) (g : scalar) (l : gmap string scalar) : gmap string scalar :=
  adv_branch_result self b (out_cv o) (cv_h b) c "cv"
    (G_after_branch self b (out_org o) (org_h b) g)
    (adv_branch_result self b (out_org o) (org_h b) c "org" g l).

(** ** [update_G], stage by stage *)

(** The cycle outputs [update_G] and [update_D] both start from. *)
Definition forward_cycles (self : trainer) (b : batch) : list cycle_out :=
  cycle_forward self (in_feats b)
    (get_enc_h self b false) (get_dec_h self b false).1
    (get_enc_h self b true) (get_dec_h self b true).1
    (get_dec_h self b false).2 (get_dec_h self b true).2.

(** The losses [update_G] accumulates before the cyclic adversarial loss. *)
Definition losses_before_adv (self : trainer) (b : batch)
    (loss : gmap string scalar) (phase : string)
  : result (gmap string scalar) :=
  let cycle_outputs := forward_cycles self b in
  o ← getitem cycle_outputs 0;
  org ← branch_of o "org";
  loss ← calculate_vqvae_loss self b org loss;
  loss ← calculate_cyclevqvae_loss self b cycle_outputs loss;
  if use_spkradv_training (conf self) then
    o ← getitem cycle_outputs 0;
    org ← branch_of o "org";
    calculate_spkradv_loss self b org loss phase
  else Ok loss.

(** Whether some output of the discriminator reaches the root of [t]
    without passing a [masked_select] by [m]: then frames outside [m]
    take part in [t]. *)
Fixpoint unmasked_D (m : tensor) (t : tensor) : bool :=
  match t with
  | Input _ | GOut _ => false
  | ModelD _ => true
  | MaskedSelect x m' => if decide (m' = m) then false else unmasked_D m x
  | Detach x | Transpose x _ _ | Split x _ _ _ | Reshape x _
  | OnesLike x | ZerosLike x => unmasked_D m x
  | Cat x y => unmasked_D m x || unmasked_D m y
  end.

Definition loss_unmasked (m : tensor) (s : scalar) : bool :=
  match s with
  | Criterion _ x y => unmasked_D m x || unmasked_D m y
  | _ => false
  end.

(** ** An example trainer

    Two cycles; the inherited loss functions add nothing; [get_D_inputs]
    appends a conditioning tensor named after the label it was given. *)
Definition ex_branch (name : string) : branch_out :=
  {| decoded := GOut name; others := ∅ |}.

Definition ex_outputs : list cycle_out :=
  [ {| out_org := ex_branch "org0"; out_cv := ex_branch "cv0" |};
    {| out_org := ex_branch "org1"; out_cv := ex_branch "cv1" |} ].

Definition ex_trainer (n : Z) (acgan real_only stop : bool) : trainer :=
  {| conf := {| n_cycles := n; acgan_flag := acgan;
                use_real_only_acgan := real_only;
                use_spkradv_training := false;
                alpha := {| alpha_adv := Const "alpha_adv";
                            alpha_acgan := Const "alpha_acgan";
                            alpha_fake := Const "alpha_fake";
                            alpha_real := Const "alpha_real" |} |};
     n_spkrs := 4;
     stop_generator := stop;
     get_enc_h := fun _ cv => Input (if cv then "enc_h_cv" else "enc_h");
     get_dec_h := fun _ cv =>
       if cv then (Input "dec_h_cv", Input "spkrvec_cv")
       else (Input "dec_h", Input "spkrvec");
     cycle_forward := fun _ _ _ _ _ _ _ => ex_outputs;
     get_D_inputs := fun _ x label => Cat x (Input ("cond_" +:+ label));
     calculate_vqvae_loss := fun _ _ l => Ok l;
     calculate_cyclevqvae_loss := fun _ _ l => Ok l;
     calculate_spkradv_loss := fun _ _ l _ => Ok l |}.

Definition ex_batch : batch :=
  {| in_feats := Input "in_feats";
     decoder_mask := Input "decoder_mask";
     cycle_decoder_mask := Input "cycle_decoder_mask";
     org_h := Input "org_h";
     cv_h := Input "cv_h" |}.

Definition ex_loss : gmap string scalar :=
  {[ "G" := Const "0"; "D" := Const "0" ]}.

(** The reading of the masking rule in which every adversarial and every
    ACGAN term [update_G] writes is restricted to [decoder_mask]. *)
Definition adversarial_losses_masked (self : trainer) (b : batch)
    (loss : gmap string scalar) (phase : string) : Prop :=
  ∀ l' ev k t,
    CycleGANTrainer.update_G self b loss phase = Ok (l', ev) →
    String.prefix "D_adv_" k || String.prefix "D_acgan_adv_" k = true →
    l' !! k = Some t →
    loss_unmasked (decoder_mask b) t = false.

(** ** The discriminator loss, term by term

    [o] is the cycle record the loop reads, [k] one of ["real"],
    ["org_fake"], ["cv_fake"]. *)
Definition disc_input (self : trainer) (b : batch) (o : cycle_out)
    (k : string) : tensor :=
  if String.eqb k "real" then get_D_inputs self b (in_feats b) "org"
  else if String.eqb k "org_fake"
  then get_D_inputs self b (Detach (decoded (out_org o))) "org"
  else get_D_inputs self b (Detach (decoded (out_cv o))) "cv".

Definition disc_output (self : trainer) (b : batch) (o : cycle_out)
    (k : string) : tensor :=
  CycleGANTrainer.return_sample (disc_input self b o k).

(** The sample that enters the squared-error terms. *)
Definition disc_validity (self : trainer) (b : batch) (o : cycle_out)
    (k : string) : tensor :=
  if acgan_flag (conf self)
  then Split (disc_output self b o k) [1%Z; n_spkrs self] 2 0
  else disc_output self b o k.

Definition disc_ce_term (self : trainer) (b : batch) (o : cycle_out)
    (k : string) : scalar :=
  Criterion "ce"
    (Reshape (Split (disc_output self b o k) [1%Z; n_spkrs self] 2 1)
       [Dim (-1); SizeOf 2])
    (Reshape (if String.eqb k "cv_fake" then cv_h b else org_h b) [Dim (-1)]).

Definition disc_real_term (self : trainer) (b : batch) (o : cycle_out)
  : scalar :=
  let x := MaskedSelect (disc_validity self b o "real") (decoder_mask b) in
  Criterion "mse" x (OnesLike x).

Definition fake_mask (b : batch) (fake_key : string) : tensor :=
  if String.eqb fake_key "org_fake" then cycle_decoder_mask b
  else decoder_mask b.

Definition disc_fake_term (self : trainer) (b : batch) (o : cycle_out)
    (fake_key : string) : scalar :=
  let x := MaskedSelect (disc_validity self b o fake_key)
             (fake_mask b fake_key) in
  Criterion "mse" x (ZerosLike x).

(** The total ["D"] after the classification terms of one cycle. *)
Definition D_after_acgan (self : trainer) (b : batch) (o : cycle_out)
    (d : scalar) : scalar :=
  if acgan_flag (conf self) then
    let a := alpha_acgan (alpha (conf self)) in
    let d1 := Add d (Mul a (disc_ce_term self b o "real")) in
    let d2 := if use_real_only_acgan (conf self) then d1
              else Add d1 (Mul a (disc_ce_term self b o "org_fake")) in
    Add d2 (Mul a (disc_ce_term self b o "cv_fake"))
  else d.

(** The total ["D"] after one cycle that drew [fake_key]. *)
Definition D_after_cycle (self : trainer) (b : batch) (o : cycle_out)
    (fake_key : string) (d : scalar) : scalar :=
  Add (D_after_acgan self b o d)
      (Add (Mul (alpha_fake (alpha (conf self)))
              (disc_fake_term self b o fake_key))
           (Mul (alpha_real (alpha (conf self)))
              (disc_real_term self b o))).

(** The generator of random numbers after one draw, and the key the next
    call of [random.choice(["org_fake", "cv_fake"])] returns. *)
Definition next_rng (g : rng) : rng :=
  {| tape := tape g; pos := S (pos g) |}.

Definition drawn_fake_key (g : rng) : string :=
  if decide (tape g (pos g) mod 2 = 0)%nat then "org_fake" else "cv_fake".

(** The keys written for cycle [c] by the discriminator loss. *)
Definition disc_keys (acgan : bool) (c : nat) : list string :=
  ((if acgan
    then ["D_ce_real_" +:+ CycleGANTrainer.cyc_label c;
          "D_ce_org_fake_" +:+ CycleGANTrainer.cyc_label c;
          "D_ce_cv_fake_" +:+ CycleGANTrainer.cyc_label c]
    else [])
   ++ ["D_real_" +:+ CycleGANTrainer.cyc_label c;
       "D_fake_" +:+ CycleGANTrainer.cyc_label c])%list.

(** The accumulator after one cycle of the discriminator loss. *)
Definition disc_cycle_result (self : trainer) (b : batch) (o : cycle_out)
    (c : nat) (fake_key : string) (d : scalar) (l : gmap string scalar)
  : gmap string scalar :=
  let lbl := CycleGANTrainer.cyc_label c in
  let a := alpha_acgan (alpha (conf self)) in
  let l1 :=
    if acgan_flag (conf self) then
      let d1 := Add d (Mul a (disc_ce_term self b o "real")) in
      let la :=
        <["D" := d1]>
          (<["D_ce_real_" +:+ lbl := disc_ce_term self b o "real"]> l) in
      let lb :=
        <["D_ce_org_fake_" +:+ lbl := disc_ce_term self b o "org_fake"]> la in
      let lb' :=
        if use_real_only_acgan (conf self) then lb
        else <["D" := Add d1 (Mul a (disc_ce_term self b o "org_fake"))]> lb in
      <["D" := D_after_acgan self b o d]>
        (<["D_ce_cv_fake_" +:+ lbl := disc_ce_term self b o "cv_fake"]> lb')
    else l in
  <["D" := D_after_cycle self b o fake_key d]>
    (<["D_fake_" +:+ lbl := disc_fake_term self b o fake_key]>
       (<["D_real_" +:+ lbl := disc_real_term self b o]> l1)).

(** A generator whose draws are 0, 1, 2, ... *)
Definition ex_rng : rng := {| tape := fun i => i; pos := 0 |}.

(** The reading of the tie-break rule in which one call of [update_D]
    takes a single draw. *)
Definition one_fake_draw_per_step (self : trainer) (b : batch)
    (loss : gmap string scalar) (phase : string) (g : rng) : Prop :=
  ∀ l' ev g',
    CycleGANTrainer.update_D self b loss phase g = Ok (l', ev, g') →
    pos g' = S (pos g).

(** The batch and the configuration carry no gradient of their own, and
    [get_D_inputs] only appends conditioning of the batch. *)
Definition detached_setting (self : trainer) (b : batch) : Prop :=
  (∀ x label, reaches_G x = false →
     reaches_G (get_D_inputs self b x label) = false) ∧
  reaches_G (in_feats b) = false ∧
  grad_reaches_G (alpha_acgan (alpha (conf self))) = false ∧
  grad_reaches_G (alpha_fake (alpha (conf self))) = false ∧
  grad_reaches_G (alpha_real (alpha (conf self))) = false ∧
  reaches_G (org_h b) = false ∧
  reaches_G (cv_h b) = false.

(** ** Further statements about [get_model] *)

(** The collection of [get_model] before the discriminator is added. *)
Definition models_before_D (conf : model_conf) (spkr_size : Z)
    (device : string) (scaler : option string) : gmap string network :=
  let models : gmap string network :=
    {[ "G" := To (VQVAE2 conf spkr_size scaler) device ]} in
  let models :=
    if mc_use_spkradv_training conf
    then <["SPKRADV" := To (SpeakerAdversarialNetwork conf spkr_size) device]>
           models
    else models in
  if mc_use_spkr_classifier conf
  then <["C" := To (ParallelWaveGANDiscriminator (input_size conf) spkr_size
                      (spkr_classifier_kernel_size conf)
                      (LayersInt (n_spkr_classifier_layers conf))
                      64 1 "LeakyReLU" "0.2" true true) device]> models
  else models.

(** Whether a network of the collection was moved to [device]. *)
Definition on_device (device : string) (n : network) : Prop :=
  ∃ n', n = To n' device.

(** The record a save of [ex_collection] would hold. *)
Definition ex_record_saved : checkpoint_record nat :=
  {| ckpt_model := {[ "G" := 0; "D" := 1 ]}; ckpt_steps := 7 |}.

(** ** Further statements about [main] *)

(** The effects of [main] up to the construction of the model, for the
    configuration the world returns. *)
Definition setup_events {P} (w : world P) (args : cli_args)
  : list io_event :=
  let conf := load_yaml w (conf_path args) in
  let featdir := path_join (featdir args) (feature_label conf) in
  ([LoadYaml (conf_path args)]
   ++ flat_map
        (fun phase =>
           [OpenScpdir (path_join (scpdir args) phase);
            OpenFeatsscp
              (Some (path_join (path_join featdir phase) "feats.scp"))])
        ["train"; "dev"; "eval"]
   ++ (if String.eqb (flag args) "eval"
          && negb (bool_decide (featsscp args = Some "None"))
       then [OpenFeatsscp (featsscp args)] else [])
   ++ [Mkdir (path_join (expdir args) (path_stem w (conf_path args)));
       JoblibLoad (path_join featdir "scaler.pkl");
       BuildModel "cuda"])%list.

(** The effects that create the training objects and start the run. *)
Definition training_events {P} (w : world P) (args : cli_args)
  : list io_event :=
  [GetOptimizer; GetCriterion; GetDataloader (flag args) (n_jobs args);
   GetScheduler;
   NewSummaryWriter
     (expdir args +:+ "/runs/train-" +:+ path_stem w (conf_path args));
   NewSummaryWriter
     (expdir args +:+ "/runs/dev-" +:+ path_stem w (conf_path args));
   TrainerRun (trainer_type (load_yaml w (conf_path args))) (flag args)].

(** The model [main] builds: [get_model] on the loaded configuration. *)
Definition main_get_model {P} (w : world P) (args : cli_args)
  : result (gmap string network) :=
  let conf := load_yaml w (conf_path args) in
  get_model conf (n_train_spkrs w (path_join (scpdir args) "train")) "cuda"
    (Some (path_join (path_join (featdir args) (feature_label conf))
             "scaler.pkl")).

(** A world with CUDA whose configuration asks for another GAN type, and
    argument records for the checkpoint cases. *)
Definition ex_world_wgan : world nat :=
  {| cuda_is_available := true;
     load_yaml := fun _ => ex_model_conf "wgan" false false;
     n_train_spkrs := fun _ => 2%Z;
     path_stem := fun _ => "default";
     glob := fun _ _ => [];
     first_number := fun _ => Ok 0%Z;
     torch_load := fun _ => Ok ex_record;
     initial_state := fun _ => 0 |}.

Definition ex_args_checkpoint (f : string) (c : option string) : cli_args :=
  {| flag := f; n_jobs := 4; conf_path := "conf/default.yml";
     checkpoint := c; scpdir := "data/scp"; featdir := "data/feats";
     featsscp := Some "None"; expdir := "exp" |}.

(** * Loops, labels and accumulators *)

Lemma bind_Ok {A B} (a : A) (f : A → result B) : (Ok a ≫= f) = f a.
Proof. reflexivity. Qed.

Lemma for_each_app {A S} (xs ys : list A) (body : A → S → result S) (s : S) :
  for_each (xs ++ ys) body s = (s' ← for_each xs body s; for_each ys body s').
Proof.
  revert s. induction xs as [|x xs IH]; intros s; simpl; [done|].
  destruct (body x s); simpl; [apply IH|done].
Qed.

Lemma for_each_snoc {A S} (xs : list A) (x : A) (body : A → S → result S) s :
  for_each (xs ++ [x]) body s = (s' ← for_each xs body s; body x s').
Proof.
  rewrite for_each_app. destruct (for_each xs body s); simpl; [|done].
  by destruct (body x a).
Qed.

Lemma getitem_Some {A} (xs : list A) i x :
  xs !! i = Some x → getitem xs i = Ok x.
Proof. unfold getitem. by intros ->. Qed.

Lemma lookup_loss_Some k v (loss : gmap string scalar) :
  loss !! k = Some v → lookup_loss k loss = Ok v.
Proof. unfold lookup_loss. by intros ->. Qed.

Lemma iadd_weighted_Some k w k2 old v (loss : gmap string scalar) :
  loss !! k = Some old → loss !! k2 = Some v →
  iadd_weighted k w k2 loss = Ok (<[k := Add old (Mul w v)]> loss).
Proof.
  intros H1 H2. unfold iadd_weighted.
  by rewrite (lookup_loss_Some _ _ _ H1), bind_Ok, (lookup_loss_Some _ _ _ H2).
Qed.

(** Labels: a decimal number followed by a letter determines both parts. *)
Lemma app_cons a s t : String a s +:+ t = String a (s +:+ t).
Proof. reflexivity. Qed.

Lemma app_nil t : "" +:+ t = t.
Proof. reflexivity. Qed.

Lemma pretty_N_char_digit x : is_digit (pretty_N_char x) = true.
Proof. unfold pretty_N_char. by repeat case_match. Qed.

Lemma pretty_N_go_digits x s :
  all_digits s = true → all_digits (pretty_N_go x s) = true.
Proof.
  revert s. induction (N.lt_wf_0 x) as [x _ IH]; intros s Hs.
  destruct (decide (x = 0)%N) as [->|Hx].
  - by rewrite pretty_N_go_0.
  - rewrite pretty_N_go_step by lia. apply IH.
    + apply N.div_lt; lia.
    + simpl. by rewrite pretty_N_char_digit, Hs.
Qed.

Lemma pretty_nat_digits (n : nat) : all_digits (pretty n) = true.
Proof.
  unfold pretty, pretty_nat, pretty, pretty_N.
  case_decide; [done|]. by apply pretty_N_go_digits.
Qed.

Lemma digits_prefix_inj s1 s2 a r1 r2 :
  all_digits s1 = true → all_digits s2 = true → is_digit a = false →
  s1 +:+ String a r1 = s2 +:+ String a r2 → s1 = s2 ∧ r1 = r2.
Proof.
  revert s2. induction s1 as [|x s1 IH]; intros [|y s2] H1 H2 Ha Heq;
    rewrite ?app_cons, ?app_nil in Heq; simplify_eq/=.
  - done.
  - by rewrite Ha in H2.
  - by rewrite Ha in H1.
  - apply andb_prop in H1 as [_ H1]. apply andb_prop in H2 as [_ H2].
    destruct (IH s2 H1 H2 Ha) as [-> ->]; done.
Qed.

Lemma pretty_label_inj (c c' : nat) r r' :
  pretty c +:+ String "c" r = pretty c' +:+ String "c" r' → c = c' ∧ r = r'.
Proof.
  intros H. apply digits_prefix_inj in H as [H ->];
    auto using pretty_nat_digits.
  split; [|done]. by apply (inj pretty).
Qed.

(** Two keys built from labels differ: peel the literal prefixes, then
    compare the cycle numbers. *)
Ltac key_ne :=
  let H := fresh "Hkey" in
  intros H;
  unfold CycleGANTrainer.cyc_io_label, CycleGANTrainer.cyc_label in H;
  rewrite ?app_cons, ?app_nil in H;
  simplify_eq;
  repeat match goal with
  | H' : pretty _ +:+ _ = pretty _ +:+ _ |- _ =>
      apply pretty_label_inj in H' as [? ?]; simplify_eq
  end;
  try lia; try done.

Ltac map_lookup :=
  repeat first
    [ rewrite lookup_insert_eq
    | rewrite lookup_insert_ne by (done || key_ne) ].

(** * Properties of [crank/bin/train.py] *)

Section get_model_facts.
Context (conf : model_conf) (spkr_size : Z) (device : string)
        (scaler : option string).

Lemma eqb_ne (s t : string) : s ≠ t → String.eqb s t = false.
Proof. intros H. by apply String.eqb_neq. Qed.

(** [get_model] with the constructor calls of the first three networks
    carried out. *)
Lemma get_model_eq :
  get_model conf spkr_size device scaler =
  if bool_decide (trainer_type conf ∈ ["lsgan"; "cyclegan"; "stargan"]) then
    call ← discriminator_call conf spkr_size;
    D ← construct call;
    Ok (<["D" := To D device]> (models_before_D conf spkr_size device scaler))
  else Ok (models_before_D conf spkr_size device scaler).
Proof.
  unfold get_model, models_before_D.
  by destruct (mc_use_spkradv_training conf), (mc_use_spkr_classifier conf).
Qed.

(** C8: with a discriminator requested and [gan_type] other than
    ["lsgan"], [output_channels] is read before any assignment, and
    [get_model] ends in [UnboundLocalError] instead of a collection. *)
Theorem get_model_unbound_output_channels :
  trainer_type conf ∈ ["lsgan"; "cyclegan"; "stargan"] →
  gan_type conf ≠ "lsgan" →
  get_model conf spkr_size device scaler
  = Raise (UnboundLocalError "output_channels").
Proof.
  intros Ht Hg. rewrite get_model_eq.
  rewrite bool_decide_eq_true_2 by done.
  unfold discriminator_call. rewrite (eqb_ne _ _ Hg).
  destruct (mc_acgan_flag conf); [done|].
  by destruct (use_residual_network conf).
Qed.

End get_model_facts.

Lemma get_model_unbound_output_channels_witness :
  get_model (ex_model_conf "wgan" false true) 2 "cuda" None
  = Raise (UnboundLocalError "output_channels").
Proof.
  apply get_model_unbound_output_channels.
  - simpl. set_solver.
  - simpl. discriminate.
Defined.


(** C10: without CUDA, [main] stops at its assertion: the result is the
    [AssertionError] and the trace is the one it started with, so no
    configuration, data or model was loaded, whatever the arguments. *)
Theorem main_rejects_cpu_training {P} (w : world P) (args : cli_args)
    (tr : list io_event) :
  cuda_is_available w = false →
  main w args tr
  = (tr, Raise (AssertionError "ERROR: Do not accept CPU training.")).
Proof. intros H. unfold main. by rewrite H. Qed.

Lemma main_rejects_cpu_training_witness :
  main (ex_world false) (ex_args "train") []
  = ([], Raise (AssertionError "ERROR: Do not accept CPU training.")).
Proof. apply main_rejects_cpu_training. reflexivity. Defined.

(** With CUDA the same arguments run to the end, and the configuration is
    the first thing loaded. *)
Example main_with_cuda :
  main (ex_world true) (ex_args "train") []
  = ([LoadYaml "conf/default.yml";
      OpenScpdir "data/scp/train";
      OpenFeatsscp (Some "data/feats/mlfb/train/feats.scp");
      OpenScpdir "data/scp/dev";
      OpenFeatsscp (Some "data/feats/mlfb/dev/feats.scp");
      OpenScpdir "data/scp/eval";
      OpenFeatsscp (Some "data/feats/mlfb/eval/feats.scp");
      Mkdir "exp/default"; JoblibLoad "data/feats/mlfb/scaler.pkl";
      BuildModel "cuda";
      GetOptimizer; GetCriterion; GetDataloader "train" 4; GetScheduler;
      NewSummaryWriter "exp/runs/train-default";
      NewSummaryWriter "exp/runs/dev-default";
      TrainerRun "cyclegan" "train"], Ok tt).
Proof. vm_compute. reflexivity. Qed.

Section load_checkpoint_facts.
Context {P : Type}.
Implicit Types (model : gmap string (module P)) (record : checkpoint_record P).

Lemma map_getitem_Some {V} (d : gmap string V) k v :
  d !! k = Some v → map_getitem d k = Ok v.
Proof. unfold map_getitem. by intros ->. Qed.

Lemma load_role_step record m model :
  (if bool_decide (m ∈ dom (ckpt_model record)) && bool_decide (m ∈ dom model)
   then
     x ← map_getitem model m;
     p ← map_getitem (ckpt_model record) m;
     Ok (<[m := load_state_dict x p]> model)
   else Ok model)
  = Ok (load_role record m model).
Proof.
  unfold load_role, map_getitem.
  destruct (model !! m) as [x|] eqn:Hm;
    destruct (ckpt_model record !! m) as [p|] eqn:Hr.
  - rewrite !bool_decide_eq_true_2 by (apply elem_of_dom; eauto). done.
  - rewrite (bool_decide_eq_false_2 (m ∈ dom (ckpt_model record)))
      by (by apply not_elem_of_dom). done.
  - rewrite (bool_decide_eq_false_2 (m ∈ dom model))
      by (by apply not_elem_of_dom). by rewrite andb_false_r.
  - rewrite (bool_decide_eq_false_2 (m ∈ dom model))
      by (by apply not_elem_of_dom). by rewrite andb_false_r.
Qed.

Lemma lookup_load_role record m model role :
  load_role record m model !! role =
  if decide (role = m) then
    match model !! m, ckpt_model record !! m with
    | Some x, Some p => Some (load_state_dict x p)
    | o, _ => o
    end
  else model !! role.
Proof.
  unfold load_role. case_decide as Hrole; [subst role|].
  - destruct (model !! m) eqn:Hm; [|done].
    destruct (ckpt_model record !! m); [by rewrite lookup_insert_eq|done].
  - destruct (model !! m); [|done].
    destruct (ckpt_model record !! m); [|done].
    by rewrite lookup_insert_ne.
Qed.

(** C7, as the code has it: when the collection and the record both hold
    ["G"], [load_checkpoint] returns the record's step count; ["G"] is
    loaded, each of ["D"], ["C"], ["SPKRADV"] is loaded when it is on both
    sides and left as it was otherwise, and no other role is touched. *)
Theorem load_checkpoint_roles model record g pg :
  model !! "G" = Some g →
  ckpt_model record !! "G" = Some pg →
  ∃ model',
    load_checkpoint model record = Ok (model', ckpt_steps record) ∧
    ∀ role,
      model' !! role =
      if bool_decide (role ∈ ["G"; "D"; "C"; "SPKRADV"]) then
        match model !! role, ckpt_model record !! role with
        | Some m, Some p => Some (load_state_dict m p)
        | o, _ => o
        end
      else model !! role.
Proof.
  intros Hg Hpg.
  exists (load_role record "SPKRADV"
            (load_role record "C"
               (load_role record "D" (<["G" := load_state_dict g pg]> model)))).
  split.
  - unfold load_checkpoint.
    rewrite (map_getitem_Some _ _ _ Hg), (map_getitem_Some _ _ _ Hpg).
    simpl. rewrite load_role_step. simpl. rewrite load_role_step. simpl.
    by rewrite load_role_step.
  - intros role. rewrite !lookup_load_role.
    destruct (decide (role = "SPKRADV")) as [->|?];
      [by rewrite !lookup_insert_ne by done|].
    destruct (decide (role = "C")) as [->|?];
      [by rewrite !lookup_insert_ne by done|].
    destruct (decide (role = "D")) as [->|?];
      [by rewrite !lookup_insert_ne by done|].
    destruct (decide (role = "G")) as [->|?].
    + by rewrite lookup_insert_eq, Hg, Hpg.
    + rewrite lookup_insert_ne by done.
      rewrite bool_decide_eq_false_2; [done|].
      intros Hin. repeat (apply elem_of_cons in Hin as [->|Hin]; [done|]).
      by apply elem_of_nil in Hin.
Qed.

(** Without ["G"] on either side the load fails. *)
Lemma load_checkpoint_needs_G model record :
  model !! "G" = None ∨ ckpt_model record !! "G" = None →
  load_checkpoint model record = Raise (KeyError "G").
Proof.
  unfold load_checkpoint, map_getitem.
  intros [H|H]; rewrite H; [done|]. by destruct (model !! "G").
Qed.
End load_checkpoint_facts.

Lemma load_checkpoint_roles_witness :
  ∃ model',
    load_checkpoint ex_collection ex_record = Ok (model', 2000%Z) ∧
    ∀ role,
      model' !! role =
      if bool_decide (role ∈ ["G"; "D"; "C"; "SPKRADV"]) then
        match ex_collection !! role, ckpt_model ex_record !! role with
        | Some m, Some p => Some (load_state_dict m p)
        | o, _ => o
        end
      else ex_collection !! role.
Proof.
  apply (load_checkpoint_roles ex_collection ex_record (ex_module "g" 0) 10).
  - reflexivity.
  - reflexivity.
Defined.

(** C7 as stated fails: a record without ["G"] is not skipped over, the
    load ends in [KeyError]; and a role outside ["G"], ["D"], ["C"],
    ["SPKRADV"] that is on both sides keeps its old parameters. *)
Lemma load_checkpoint_missing_G_not_skipped :
  load_checkpoint ex_collection ex_record_no_G = Raise (KeyError "G") ∧
  ¬ loads_common_roles ex_collection ex_record_no_G ∧
  ¬ loads_common_roles ex_collection_extra ex_record_extra.
Proof.
  assert (H : load_checkpoint ex_collection ex_record_no_G
              = Raise (KeyError "G")) by reflexivity.
  split; [exact H|]. split.
  - intros [model' [Hload _]]. rewrite H in Hload. discriminate.
  - intros [model' [Hload Hroles]].
    specialize (Hroles "P").
    assert (Hrun : load_checkpoint ex_collection_extra ex_record_extra
                   = Ok (<["G" := load_state_dict (ex_module "g" 0) 10]>
                           ex_collection_extra, 3000%Z)) by reflexivity.
    rewrite Hrun in Hload. injection Hload as <-.
    vm_compute in Hroles. discriminate.
Qed.

(** * Properties of [CycleGANTrainer] *)

Section cycleadv_facts.
Import CycleGANTrainer.
Context (self : trainer) (b : batch) (outputs : list cycle_out).
Implicit Types (l loss : gmap string scalar) (g : scalar) (c n : nat).

Lemma cycleadv_step_org c o g l :
  outputs !! c = Some o → l !! "G" = Some g →
  cycleadv_step self b outputs (decoder_mask b) c "org" l
  = Ok (adv_branch_result self b (out_org o) (org_h b) c "org" g l).
Proof.
  intros Ho Hg. unfold cycleadv_step, adv_branch_result.
  rewrite (getitem_Some _ _ _ Ho). simpl.
  unfold G_after_branch, adv_term, adv_operand, acgan_adv_term, adv_input,
    setitem.
  destruct (acgan_flag (conf self)); simpl.
  - erewrite iadd_weighted_Some;
      [|by rewrite lookup_insert_ne by key_ne|by rewrite lookup_insert_eq].
    simpl. erewrite iadd_weighted_Some;
      [done|by rewrite lookup_insert_ne by key_ne; rewrite lookup_insert_eq
           |by rewrite lookup_insert_eq].
  - erewrite iadd_weighted_Some;
      [done|by rewrite lookup_insert_ne by key_ne|by rewrite lookup_insert_eq].
Qed.

Lemma cycleadv_step_cv c o g l :
  outputs !! c = Some o → l !! "G" = Some g →
  cycleadv_step self b outputs (decoder_mask b) c "cv" l
  = Ok (adv_branch_result self b (out_cv o) (cv_h b) c "cv" g l).
Proof.
  intros Ho Hg. unfold cycleadv_step, adv_branch_result.
  rewrite (getitem_Some _ _ _ Ho). simpl.
  unfold G_after_branch, adv_term, adv_operand, acgan_adv_term, adv_input,
    setitem.
  destruct (acgan_flag (conf self)); simpl.
  - erewrite iadd_weighted_Some;
      [|by rewrite lookup_insert_ne by key_ne|by rewrite lookup_insert_eq].
    simpl. erewrite iadd_weighted_Some;
      [done|by rewrite lookup_insert_ne by key_ne; rewrite lookup_insert_eq
           |by rewrite lookup_insert_eq].
  - erewrite iadd_weighted_Some;
      [done|by rewrite lookup_insert_ne by key_ne|by rewrite lookup_insert_eq].
Qed.

Lemma adv_branch_result_G br h c io g l :
  adv_branch_result self b br h c io g l !! "G"
  = Some (G_after_branch self b br h g).
Proof. unfold adv_branch_result. by rewrite lookup_insert_eq. Qed.

Lemma cycleadv_cycle c o g l :
  outputs !! c = Some o → l !! "G" = Some g →
  for_each ["org"; "cv"]
    (fun io loss => cycleadv_step self b outputs (decoder_mask b) c io loss) l
  = Ok (adv_cycle_result self b o c g l).
Proof.
  intros Ho Hg. simpl.
  rewrite (cycleadv_step_org c o g l Ho Hg). simpl.
  rewrite (cycleadv_step_cv c o _ _ Ho (adv_branch_result_G _ _ _ _ _ _)).
  done.
Qed.

Lemma adv_cycle_result_G c o g l :
  adv_cycle_result self b o c g l !! "G" = Some (G_after_cycle self b g o).
Proof. unfold adv_cycle_result. by rewrite adv_branch_result_G. Qed.

Lemma adv_cycle_result_keys c o g l :
  let l' := adv_cycle_result self b o c g l in
  l' !! ("D_adv_" +:+ cyc_io_label c "org")
    = Some (adv_term self b (out_org o)) ∧
  l' !! ("D_adv_" +:+ cyc_io_label c "cv")
    = Some (adv_term self b (out_cv o)) ∧
  (acgan_flag (conf self) = true →
   l' !! ("D_acgan_adv_" +:+ cyc_io_label c "org")
     = Some (acgan_adv_term self b (out_org o) (org_h b)) ∧
   l' !! ("D_acgan_adv_" +:+ cyc_io_label c "cv")
     = Some (acgan_adv_term self b (out_cv o) (cv_h b))).
Proof.
  unfold adv_cycle_result, adv_branch_result.
  destruct (acgan_flag (conf self)); simpl;
    (split; [by map_lookup|]); (split; [by map_lookup|]); [|done].
  intros _. split; by map_lookup.
Qed.

Lemma adv_cycle_result_frame c o g l k :
  k ≠ "G" → k ∉ adv_keys (acgan_flag (conf self)) c →
  adv_cycle_result self b o c g l !! k = l !! k.
Proof.
  intros HG. unfold adv_cycle_result, adv_branch_result, adv_keys.
  destruct (acgan_flag (conf self)); simpl;
    rewrite !not_elem_of_cons; intros Hk; destruct_and!;
    by rewrite !lookup_insert_ne by done.
Qed.

Lemma adv_cycle_result_dom c o g l :
  "G" ∈ dom l →
  dom (adv_cycle_result self b o c g l)
  = dom l ∪ list_to_set (adv_keys (acgan_flag (conf self)) c).
Proof.
  intros HG. unfold adv_cycle_result, adv_branch_result, adv_keys.
  destruct (acgan_flag (conf self)); simpl; rewrite !dom_insert_L;
    set_solver.
Qed.

(** Keys of different cycles never coincide. *)
Lemma adv_keys_disjoint a a' c c' k :
  c ≠ c' → k ∈ adv_keys a c → k ∉ adv_keys a' c'.
Proof.
  intros Hc. unfold adv_keys.
  destruct a, a'; simpl; intros Hk Hk';
    repeat match goal with
    | H : _ ∈ _ :: _ |- _ => apply elem_of_cons in H as [H|H]
    | H : _ ∈ [] |- _ => by apply elem_of_nil in H
    end;
    subst k;
    match goal with H : _ = _ |- False => revert H; key_ne end.
Qed.

Lemma adv_keys_not_G a c : "G" ∉ adv_keys a c.
Proof.
  unfold adv_keys. destruct a; simpl;
    rewrite ?not_elem_of_cons; repeat split;
    try apply not_elem_of_nil; key_ne.
Qed.

(** The loop of [calculate_cycleadv_loss] over the first [n] cycles. *)
Lemma cycleadv_loop n l g0 :
  (n ≤ List.length outputs)%nat → l !! "G" = Some g0 →
  ∃ l',
    for_each (seq 0 n)
      (fun c loss =>
         for_each ["org"; "cv"]
           (fun io loss =>
              cycleadv_step self b outputs (decoder_mask b) c io loss) loss)
      l = Ok l' ∧
    l' !! "G" = Some (fold_left (G_after_cycle self b) (take n outputs) g0) ∧
    (∀ c o, c < n → outputs !! c = Some o →
       l' !! ("D_adv_" +:+ cyc_io_label c "org")
         = Some (adv_term self b (out_org o)) ∧
       l' !! ("D_adv_" +:+ cyc_io_label c "cv")
         = Some (adv_term self b (out_cv o)) ∧
       (acgan_flag (conf self) = true →
        l' !! ("D_acgan_adv_" +:+ cyc_io_label c "org")
          = Some (acgan_adv_term self b (out_org o) (org_h b)) ∧
        l' !! ("D_acgan_adv_" +:+ cyc_io_label c "cv")
          = Some (acgan_adv_term self b (out_cv o) (cv_h b)))) ∧
    (∀ k, k ≠ "G" →
       (∀ c, c < n → k ∉ adv_keys (acgan_flag (conf self)) c) →
       l' !! k = l !! k) ∧
    dom l' = dom l ∪
             list_to_set (flat_map (adv_keys (acgan_flag (conf self)))
                            (seq 0 n)).
Proof.
  intros Hn HG. induction n as [|n IH].
  - exists l. simpl.
    split; [done|]. split; [done|]. split; [intros; lia|]. split; [done|].
    by rewrite (right_id_L ∅ (∪)).
  - destruct IH as (l' & Hrun & HG' & Hkeys & Hframe & Hdom); [lia|].
    destruct (lookup_lt_is_Some_2 outputs n) as [o Ho]; [lia|].
    exists (adv_cycle_result self b o n
              (fold_left (G_after_cycle self b) (take n outputs) g0) l').
    rewrite seq_S, for_each_snoc, Hrun. simpl.
    split; [by apply cycleadv_cycle|].
    split.
    { rewrite adv_cycle_result_G, (take_S_r _ _ _ Ho), fold_left_app. done. }
    split.
    { intros c o' Hc Ho'. destruct (decide (c = n)) as [->|Hne].
      - rewrite Ho in Ho'. injection Ho' as <-.
        apply adv_cycle_result_keys.
      - destruct (Hkeys c o' ltac:(lia) Ho') as (H1 & H2 & H3).
        assert (Hfr : ∀ k, k ∈ adv_keys true c →
                  adv_cycle_result self b o n
                    (fold_left (G_after_cycle self b) (take n outputs) g0) l'
                    !! k = l' !! k).
        { intros k Hk. apply adv_cycle_result_frame.
          - intros ->. by apply (adv_keys_not_G true c).
          - by apply (adv_keys_disjoint true _ c n). }
        rewrite !Hfr by (unfold adv_keys; simpl; set_solver).
        done. }
    split.
    { intros k HkG Hk. rewrite adv_cycle_result_frame; [|done|apply Hk; lia].
      apply Hframe; [done|]. intros c Hc. apply Hk. lia. }
    rewrite adv_cycle_result_dom by (apply elem_of_dom; eauto).
    rewrite Hdom, flat_map_app. simpl. rewrite app_nil_r.
    rewrite list_to_set_app_L. by rewrite (assoc_L (∪)).
Qed.
End cycleadv_facts.

Section update_G_facts.
Import CycleGANTrainer.
Context (self : trainer) (b : batch).
Implicit Types (l loss : gmap string scalar) (phase : string).

Lemma update_G_stages loss phase :
  update_G self b loss phase =
  (l1 ← losses_before_adv self b loss phase;
   l' ← calculate_cycleadv_loss self b (forward_cycles self b) l1;
   if String.eqb phase "train" && negb (stop_generator self)
   then Ok (l', step_model l' "G")
   else Ok (l', [])).
Proof.
  unfold update_G, losses_before_adv, forward_cycles.
  destruct (get_dec_h self b false) as [dec_h spkrvec].
  destruct (get_dec_h self b true) as [dec_h_cv spkrvec_cv]. simpl.
  destruct (getitem _ 0) as [o|]; simpl; [|done].
  destruct (calculate_vqvae_loss self b (out_org o) loss) as [l0|];
    simpl; [|done].
  destruct (calculate_cyclevqvae_loss _ _ _ l0) as [l1|]; simpl; [|done].
  by destruct (use_spkradv_training (conf self)).
Qed.

(** C1, with the key names the code writes: after the earlier stages of
    [update_G] returned [l1], every cycle [c] below [n_cycles] and both
    branches hold under ["D_adv_{c}cyc_{io}"] the ["mse"] criterion of the
    discriminator output for that branch's decoded tensor, conditioned
    with the label ["cv"], against ones; ["G"] has grown by each of them
    times [alpha["adv"]]; and with two cycles and no ACGAN the keys added
    are the four ["D_adv_..."] names and no ["D_acgan_adv_..."] key. *)
Theorem update_G_adversarial_terms loss phase l1 g1 :
  losses_before_adv self b loss phase = Ok l1 →
  l1 !! "G" = Some g1 →
  (Z.to_nat (n_cycles (conf self)) ≤ List.length (forward_cycles self b))%nat →
  ∃ l' ev,
    update_G self b loss phase = Ok (l', ev) ∧
    (∀ c o, (c < Z.to_nat (n_cycles (conf self)))%nat →
       forward_cycles self b !! c = Some o →
       l' !! ("D_adv_" +:+ pretty c +:+ "cyc_org")
         = Some (adv_term self b (out_org o)) ∧
       l' !! ("D_adv_" +:+ pretty c +:+ "cyc_cv")
         = Some (adv_term self b (out_cv o))) ∧
    l' !! "G"
      = Some (fold_left (G_after_cycle self b)
                (take (Z.to_nat (n_cycles (conf self)))
                   (forward_cycles self b)) g1) ∧
    (acgan_flag (conf self) = false → n_cycles (conf self) = 2%Z →
     dom l' = dom l1 ∪ {[ "D_adv_0cyc_org"; "D_adv_0cyc_cv";
                          "D_adv_1cyc_org"; "D_adv_1cyc_cv" ]} ∧
     ∀ s, l' !! ("D_acgan_adv_" +:+ s) = l1 !! ("D_acgan_adv_" +:+ s)).
Proof.
  intros H1 HG Hn.
  destruct (cycleadv_loop self b (forward_cycles self b) _ l1 g1 Hn HG)
    as (l' & Hrun & HG' & Hkeys & Hframe & Hdom).
  exists l', (if String.eqb phase "train" && negb (stop_generator self)
              then step_model l' "G" else []).
  split.
  { rewrite update_G_stages, H1. simpl.
    unfold calculate_cycleadv_loss, range. rewrite Hrun. simpl.
    by destruct (_ && _). }
  split.
  { intros c o Hc Ho. destruct (Hkeys c o Hc Ho) as (Ha & Hb & _).
    by split. }
  split; [done|].
  intros Hac Hn2. rewrite Hdom, Hac, Hn2. split.
  - assert (flat_map (adv_keys false) (seq 0 (Z.to_nat 2))
            = ["D_adv_0cyc_org"; "D_adv_0cyc_cv";
               "D_adv_1cyc_org"; "D_adv_1cyc_cv"]) as -> by reflexivity.
    simpl. set_solver.
  - intros s. apply Hframe; [key_ne|].
    intros c _. rewrite Hac. unfold adv_keys. simpl.
    rewrite !not_elem_of_cons. repeat split; try apply not_elem_of_nil; key_ne.
Qed.
End update_G_facts.

Lemma update_G_adversarial_terms_witness :
  ∃ l' ev,
    CycleGANTrainer.update_G (ex_trainer 2 false false false) ex_batch ex_loss "train"
      = Ok (l', ev) ∧
    l' !! "D_adv_1cyc_org"
      = Some (adv_term (ex_trainer 2 false false false) ex_batch
                (ex_branch "org1")) ∧
    dom l' = dom ex_loss ∪ {[ "D_adv_0cyc_org"; "D_adv_0cyc_cv";
                              "D_adv_1cyc_org"; "D_adv_1cyc_cv" ]}.
Proof.
  destruct (update_G_adversarial_terms (ex_trainer 2 false false false)
              ex_batch ex_loss "train" ex_loss (Const "0"))
    as (l' & ev & Hrun & Hkeys & _ & Hdom).
  - reflexivity.
  - reflexivity.
  - simpl. lia.
  - exists l', ev. split; [exact Hrun|]. split.
    + apply (Hkeys 1%nat (Build_cycle_out (ex_branch "org1") (ex_branch "cv1"))).
      * simpl. lia.
      * reflexivity.
    + apply Hdom; reflexivity.
Defined.

(** C1 as stated fails on the key names: with two cycles and no ACGAN, one
    call of [update_G] leaves none of the names ["{c}cyc_{io}_D_adv"] in the
    accumulator; the four terms are under ["D_adv_{c}cyc_{io}"]. *)
Lemma update_G_adv_key_names :
  ∃ l' ev,
    CycleGANTrainer.update_G (ex_trainer 2 false false false) ex_batch ex_loss
      "train" = Ok (l', ev) ∧
    l' !! "0cyc_org_D_adv" = None ∧ l' !! "0cyc_cv_D_adv" = None ∧
    l' !! "1cyc_org_D_adv" = None ∧ l' !! "1cyc_cv_D_adv" = None ∧
    is_Some (l' !! "D_adv_0cyc_org") ∧ is_Some (l' !! "D_adv_0cyc_cv") ∧
    is_Some (l' !! "D_adv_1cyc_org") ∧ is_Some (l' !! "D_adv_1cyc_cv") ∧
    dom l' ≠ dom ex_loss ∪ {[ "0cyc_org_D_adv"; "0cyc_cv_D_adv";
                              "1cyc_org_D_adv"; "1cyc_cv_D_adv" ]}.
Proof.
  eexists _, _. split; [reflexivity|].
  do 4 (split; [vm_compute; reflexivity|]).
  do 4 (split; [eexists; vm_compute; reflexivity|]).
  intros Heq.
  assert (Hin : "0cyc_org_D_adv" ∈
                dom ex_loss ∪ ({[ "0cyc_org_D_adv"; "0cyc_cv_D_adv";
                                  "1cyc_org_D_adv"; "1cyc_cv_D_adv" ]}
                               : gset string)) by set_solver.
  rewrite <- Heq in Hin. apply elem_of_dom in Hin as [v Hv].
  vm_compute in Hv. discriminate.
Qed.

Section update_G_masking.
Import CycleGANTrainer.
Context (self : trainer) (b : batch).

Lemma adv_term_masked br :
  acgan_flag (conf self) = true →
  loss_unmasked (decoder_mask b) (adv_term self b br) = false.
Proof.
  intros Hac. unfold adv_term, adv_operand. rewrite Hac. simpl.
  by rewrite decide_True.
Qed.

(** C3, as the code has it: with [acgan_flag] set, for every cycle and
    both branches [update_G] splits the discriminator output into the
    validity channel and the classification channels; the adversarial
    term is the ["mse"] criterion of the validity channel restricted by
    [decoder_mask] against ones, and the ACGAN term is the ["ce"]
    criterion of the classification channels of all frames against the
    speaker labels: [decoder_mask] is not applied to it. *)
Theorem update_G_masking_with_acgan loss phase l1 g1 :
  losses_before_adv self b loss phase = Ok l1 →
  l1 !! "G" = Some g1 →
  (Z.to_nat (n_cycles (conf self)) ≤ List.length (forward_cycles self b))%nat →
  acgan_flag (conf self) = true →
  ∃ l' ev,
    update_G self b loss phase = Ok (l', ev) ∧
    ∀ c o, (c < Z.to_nat (n_cycles (conf self)))%nat →
      forward_cycles self b !! c = Some o →
      ∀ io br h,
        (io = "org" ∧ br = out_org o ∧ h = org_h b) ∨
        (io = "cv" ∧ br = out_cv o ∧ h = cv_h b) →
        let D_outputs :=
          return_sample (get_D_inputs self b (decoded br) "cv") in
        let validity :=
          MaskedSelect (Split D_outputs [1%Z; n_spkrs self] 2 0)
            (decoder_mask b) in
        let spkr_cls := Split D_outputs [1%Z; n_spkrs self] 2 1 in
        let adv := Criterion "mse" validity (OnesLike validity) in
        let ce :=
          Criterion "ce" (Reshape spkr_cls [Dim (-1); SizeOf 2])
            (Reshape h [Dim (-1)]) in
        l' !! ("D_adv_" +:+ pretty c +:+ "cyc_" +:+ io) = Some adv ∧
        loss_unmasked (decoder_mask b) adv = false ∧
        l' !! ("D_acgan_adv_" +:+ pretty c +:+ "cyc_" +:+ io) = Some ce ∧
        loss_unmasked (decoder_mask b) ce = true.
Proof.
  intros H1 HG Hn Hac.
  destruct (cycleadv_loop self b (forward_cycles self b) _ l1 g1 Hn HG)
    as (l' & Hrun & _ & Hkeys & _ & _).
  exists l', (if String.eqb phase "train" && negb (stop_generator self)
              then step_model l' "G" else []).
  split.
  { rewrite update_G_stages, H1. simpl.
    unfold calculate_cycleadv_loss, range. rewrite Hrun. simpl.
    by destruct (_ && _). }
  intros c o Hc Ho io br h Hio.
  destruct (Hkeys c o Hc Ho) as (Ha & Hb & Hce).
  destruct (Hce Hac) as [Hc1 Hc2].
  pose proof (adv_term_masked br Hac) as Hm.
  unfold adv_term, adv_operand, acgan_adv_term, adv_input, cyc_io_label in *.
  rewrite Hac in *. cbv zeta.
  destruct Hio as [(-> & -> & ->)|(-> & -> & ->)];
    (split; [done|]; split; [exact Hm|]; split; [done|reflexivity]).
Qed.
End update_G_masking.

Lemma update_G_masking_with_acgan_witness :
  ∃ l' ev,
    CycleGANTrainer.update_G (ex_trainer 2 true false false) ex_batch ex_loss
      "train" = Ok (l', ev) ∧
    l' !! "D_adv_1cyc_cv"
    = Some (Criterion "mse"
              (MaskedSelect
                 (Split
                    (CycleGANTrainer.return_sample
                       (Cat (GOut "cv1") (Input "cond_cv")))
                    [1%Z; 4%Z] 2 0)
                 (Input "decoder_mask"))
              (OnesLike
                 (MaskedSelect
                    (Split
                       (CycleGANTrainer.return_sample
                          (Cat (GOut "cv1") (Input "cond_cv")))
                       [1%Z; 4%Z] 2 0)
                    (Input "decoder_mask")))) ∧
    l' !! "D_acgan_adv_1cyc_cv"
    = Some (Criterion "ce"
              (Reshape
                 (Split
                    (CycleGANTrainer.return_sample
                       (Cat (GOut "cv1") (Input "cond_cv")))
                    [1%Z; 4%Z] 2 1)
                 [Dim (-1); SizeOf 2])
              (Reshape (Input "cv_h") [Dim (-1)])).
Proof.
  destruct (update_G_masking_with_acgan (ex_trainer 2 true false false)
              ex_batch ex_loss "train" ex_loss (Const "0"))
    as (l' & ev & Hrun & Hmask).
  - reflexivity.
  - reflexivity.
  - simpl. lia.
  - reflexivity.
  - exists l', ev. split; [exact Hrun|].
    destruct (Hmask 1%nat
                (Build_cycle_out (ex_branch "org1") (ex_branch "cv1"))
                ltac:(simpl; lia) eq_refl
                "cv" (ex_branch "cv1") (Input "cv_h")
                ltac:(right; repeat split))
      as (Hadv & _ & Hce & _).
    split; [exact Hadv | exact Hce].
Defined.

(** C3 as stated fails in both settings of [acgan_flag]: without it the
    adversarial term takes the whole discriminator output, and with it the
    ACGAN term does. *)
Lemma update_G_losses_not_all_masked :
  ¬ adversarial_losses_masked (ex_trainer 2 false false false) ex_batch
      ex_loss "train" ∧
  ¬ adversarial_losses_masked (ex_trainer 2 true false false) ex_batch
      ex_loss "train".
Proof.
  split; intros H.
  - specialize (H _ _ "D_adv_0cyc_org" _ eq_refl eq_refl eq_refl).
    vm_compute in H. discriminate.
  - specialize (H _ _ "D_acgan_adv_0cyc_org" _ eq_refl eq_refl eq_refl).
    vm_compute in H. discriminate.
Qed.

Section discriminator_facts.
Import CycleGANTrainer.
Context (self : trainer) (b : batch) (outputs : list cycle_out).
Implicit Types (l loss : gmap string scalar) (d : scalar) (c n : nat) (g : rng).

Lemma random_choice_fake_key g :
  random_choice ["org_fake"; "cv_fake"] g = Ok (drawn_fake_key g, next_rng g).
Proof.
  unfold random_choice, drawn_fake_key, next_rng. simpl List.length.
  pose proof (Nat.mod_upper_bound (tape g (pos g)) 2 ltac:(lia)) as Hlt.
  destruct (tape g (pos g) mod 2)%nat as [|[|k]] eqn:Hm; [done|done|lia].
Qed.

Lemma discriminator_step_eq c o d l g :
  outputs !! 0%nat = Some o → l !! "D" = Some d →
  discriminator_step self b outputs c (l, g)
  = Ok (disc_cycle_result self b o c (drawn_fake_key g) d l, next_rng g).
Proof.
  intros Ho Hd. unfold discriminator_step, disc_cycle_result.
  rewrite (getitem_Some _ _ _ Ho). simpl.
  unfold D_after_cycle, D_after_acgan, disc_fake_term, disc_real_term,
    disc_validity, disc_ce_term, disc_output, disc_input, fake_mask, setitem.
  destruct (acgan_flag (conf self));
    destruct (use_real_only_acgan (conf self)) eqn:Hro; simpl;
    repeat first
      [ progress (rewrite Hro)
      | erewrite iadd_weighted_Some; [|by map_lookup|by map_lookup]
      | progress simpl
      | progress (unfold discriminator_acgan_step, setitem) ];
    rewrite random_choice_fake_key; simpl;
    unfold drawn_fake_key; case_decide; simpl;
    repeat (erewrite lookup_loss_Some by (by map_lookup); simpl);
    done.
Qed.

Lemma disc_cycle_result_D c o fk d l :
  disc_cycle_result self b o c fk d l !! "D"
  = Some (D_after_cycle self b o fk d).
Proof. unfold disc_cycle_result. by rewrite lookup_insert_eq. Qed.

Lemma disc_cycle_result_keys c o fk d l :
  let l' := disc_cycle_result self b o c fk d l in
  l' !! ("D_real_" +:+ cyc_label c) = Some (disc_real_term self b o) ∧
  l' !! ("D_fake_" +:+ cyc_label c) = Some (disc_fake_term self b o fk) ∧
  (acgan_flag (conf self) = true →
   l' !! ("D_ce_real_" +:+ cyc_label c)
     = Some (disc_ce_term self b o "real") ∧
   l' !! ("D_ce_org_fake_" +:+ cyc_label c)
     = Some (disc_ce_term self b o "org_fake") ∧
   l' !! ("D_ce_cv_fake_" +:+ cyc_label c)
     = Some (disc_ce_term self b o "cv_fake")).
Proof.
  unfold disc_cycle_result.
  destruct (acgan_flag (conf self)); simpl;
    (split; [by map_lookup|]); (split; [by map_lookup|]); [|done].
  intros _. destruct (use_real_only_acgan (conf self));
    (split; [by map_lookup|]); split; by map_lookup.
Qed.

Lemma disc_cycle_result_frame c o fk d l k :
  k ≠ "D" → k ∉ disc_keys (acgan_flag (conf self)) c →
  disc_cycle_result self b o c fk d l !! k = l !! k.
Proof.
  intros HD. unfold disc_cycle_result, disc_keys.
  destruct (acgan_flag (conf self)); simpl;
    rewrite !not_elem_of_cons; intros Hk; destruct_and!;
    [destruct (use_real_only_acgan (conf self))|];
    by rewrite !lookup_insert_ne by done.
Qed.

(** Keys of different cycles never coincide, and none is ["D"]. *)
Lemma disc_keys_disjoint a a' c c' k :
  c ≠ c' → k ∈ disc_keys a c → k ∉ disc_keys a' c'.
Proof.
  intros Hc. unfold disc_keys.
  destruct a, a'; simpl; intros Hk Hk';
    repeat match goal with
    | H : _ ∈ _ :: _ |- _ => apply elem_of_cons in H as [H|H]
    | H : _ ∈ [] |- _ => by apply elem_of_nil in H
    end;
    subst k;
    match goal with H : _ = _ |- False => revert H; key_ne end.
Qed.

Lemma disc_keys_not_D a c : "D" ∉ disc_keys a c.
Proof.
  unfold disc_keys. destruct a; simpl;
    rewrite ?not_elem_of_cons; repeat split;
    try apply not_elem_of_nil; key_ne.
Qed.

(** The loop of [calculate_cycle_discriminator_loss] over the first [n]
    cycles: it takes one draw per cycle and always reads [outputs[0]]. *)
Lemma discriminator_loop n o l d0 g :
  outputs !! 0%nat = Some o → l !! "D" = Some d0 →
  ∃ l',
    for_each (seq 0 n) (discriminator_step self b outputs) (l, g)
      = Ok (l', Nat.iter n next_rng g) ∧
    l' !! "D"
      = Some (fold_left
                (fun d c =>
                   D_after_cycle self b o
                     (drawn_fake_key (Nat.iter c next_rng g)) d)
                (seq 0 n) d0) ∧
    (∀ c, (c < n)%nat →
       l' !! ("D_real_" +:+ cyc_label c) = Some (disc_real_term self b o) ∧
       l' !! ("D_fake_" +:+ cyc_label c)
         = Some (disc_fake_term self b o
                   (drawn_fake_key (Nat.iter c next_rng g))) ∧
       (acgan_flag (conf self) = true →
        l' !! ("D_ce_real_" +:+ cyc_label c)
          = Some (disc_ce_term self b o "real") ∧
        l' !! ("D_ce_org_fake_" +:+ cyc_label c)
          = Some (disc_ce_term self b o "org_fake") ∧
        l' !! ("D_ce_cv_fake_" +:+ cyc_label c)
          = Some (disc_ce_term self b o "cv_fake"))) ∧
    (∀ k, k ≠ "D" →
       (∀ c, (c < n)%nat → k ∉ disc_keys (acgan_flag (conf self)) c) →
       l' !! k = l !! k).
Proof.
  intros Ho HD. induction n as [|n IH].
  - exists l. simpl.
    split; [done|]. split; [done|]. split; [intros; lia|]. done.
  - destruct IH as (l' & Hrun & HD' & Hkeys & Hframe).
    exists (disc_cycle_result self b o n
              (drawn_fake_key (Nat.iter n next_rng g))
              (fold_left
                 (fun d c =>
                    D_after_cycle self b o
                      (drawn_fake_key (Nat.iter c next_rng g)) d)
                 (seq 0 n) d0) l').
    rewrite seq_S, for_each_snoc, Hrun. simpl.
    split; [by apply discriminator_step_eq|].
    split.
    { by rewrite disc_cycle_result_D, fold_left_app. }
    split.
    { intros c Hc. destruct (decide (c = n)) as [->|Hne].
      - apply disc_cycle_result_keys.
      - destruct (Hkeys c ltac:(lia)) as (H1 & H2 & H3).
        assert (Hfr : ∀ k, k ∈ disc_keys true c →
                  disc_cycle_result self b o n
                    (drawn_fake_key (Nat.iter n next_rng g))
                    (fold_left
                       (fun d c =>
                          D_after_cycle self b o
                            (drawn_fake_key (Nat.iter c next_rng g)) d)
                       (seq 0 n) d0) l' !! k = l' !! k).
        { intros k Hk. apply disc_cycle_result_frame.
          - intros ->. by apply (disc_keys_not_D true c).
          - by apply (disc_keys_disjoint true _ c n). }
        rewrite !Hfr by (unfold disc_keys; simpl; set_solver).
        done. }
    intros k HkD Hk. rewrite disc_cycle_result_frame; [|done|apply Hk; lia].
    apply Hframe; [done|]. intros c Hc. apply Hk. lia.
Qed.

Lemma iter_next_rng n g :
  tape (Nat.iter n next_rng g) = tape g ∧
  pos (Nat.iter n next_rng g) = (pos g + n)%nat.
Proof.
  induction n as [|n [IHt IHp]]; simpl; [split; [done|lia]|].
  split; [done|]. rewrite IHp. lia.
Qed.
End discriminator_facts.

Lemma for_each_ext {A S} (xs : list A) (f f' : A → S → result S) (s : S) :
  (∀ x s, f x s = f' x s) → for_each xs f s = for_each xs f' s.
Proof.
  intros Hf. revert s. induction xs as [|x xs IH]; intros s; simpl; [done|].
  rewrite Hf. destruct (f' x s); simpl; [apply IH|done].
Qed.

Lemma fold_left_pointwise {A B} (f f' : A → B → A) (xs : list B) (a : A) :
  (∀ a b, f a b = f' a b) → fold_left f xs a = fold_left f' xs a.
Proof.
  intros Hf. revert a. induction xs as [|x xs IH]; intros a; simpl; [done|].
  by rewrite Hf, IH.
Qed.

Section update_D_facts.
Import CycleGANTrainer.
Context (self : trainer) (b : batch).
Implicit Types (l loss : gmap string scalar) (phase : string) (g : rng).

Lemma update_D_stages loss phase g :
  update_D self b loss phase g =
  (r ← calculate_cycle_discriminator_loss self b (forward_cycles self b)
         loss g;
   if String.eqb phase "train"
   then Ok (r.1, step_model r.1 "D", r.2)
   else Ok (r.1, [], r.2)).
Proof.
  unfold update_D, forward_cycles.
  destruct (get_dec_h self b false) as [dec_h spkrvec].
  destruct (get_dec_h self b true) as [dec_h_cv spkrvec_cv]. simpl.
  by destruct (calculate_cycle_discriminator_loss _ _ _ _ _) as [[l' g']|].
Qed.

(** C4, as the code has it: [update_D] takes one draw of
    [random.choice(["org_fake", "cv_fake"])] in every cycle, so
    [n_cycles] draws in one call; the fake term of cycle [c] is computed
    from the branch drawn for that cycle alone, restricted by
    [cycle_decoder_mask] when it is ["org_fake"] and by [decoder_mask] when
    it is ["cv_fake"], and only that term enters ["D"]. *)
Theorem update_D_fake_branch_per_cycle loss phase g o d :
  forward_cycles self b !! 0%nat = Some o → loss !! "D" = Some d →
  ∃ l' ev g',
    update_D self b loss phase g = Ok (l', ev, g') ∧
    tape g' = tape g ∧
    pos g' = (pos g + Z.to_nat (n_cycles (conf self)))%nat ∧
    (∀ c, (c < Z.to_nat (n_cycles (conf self)))%nat →
       let org_drawn := bool_decide (tape g (pos g + c) mod 2 = 0)%nat in
       let fake_key := if org_drawn then "org_fake" else "cv_fake" in
       let mask := if org_drawn then cycle_decoder_mask b
                   else decoder_mask b in
       let x := MaskedSelect (disc_validity self b o fake_key) mask in
       l' !! ("D_fake_" +:+ pretty c +:+ "cyc")
         = Some (Criterion "mse" x (ZerosLike x))) ∧
    l' !! "D"
      = Some (fold_left
                (fun d c =>
                   Add (D_after_acgan self b o d)
                     (Add (Mul (alpha_fake (alpha (conf self)))
                             (disc_fake_term self b o
                                (if bool_decide
                                      (tape g (pos g + c) mod 2 = 0)%nat
                                 then "org_fake" else "cv_fake")))
                          (Mul (alpha_real (alpha (conf self)))
                             (disc_real_term self b o))))
                (seq 0 (Z.to_nat (n_cycles (conf self)))) d).
Proof.
  intros Ho Hd.
  destruct (discriminator_loop self b (forward_cycles self b)
              (Z.to_nat (n_cycles (conf self))) o loss d g Ho Hd)
    as (l' & Hrun & HD & Hkeys & _).
  assert (Hdrawn : ∀ c, drawn_fake_key (Nat.iter c next_rng g)
            = if bool_decide (tape g (pos g + c) mod 2 = 0)%nat
              then "org_fake" else "cv_fake").
  { intros c. unfold drawn_fake_key.
    destruct (iter_next_rng c g) as [-> ->].
    by rewrite <- (decide_bool_decide). }
  exists l', (if String.eqb phase "train" then step_model l' "D" else []),
    (Nat.iter (Z.to_nat (n_cycles (conf self))) next_rng g).
  split.
  { rewrite update_D_stages.
    unfold calculate_cycle_discriminator_loss, range. rewrite Hrun. simpl.
    by destruct (String.eqb phase "train"). }
  destruct (iter_next_rng (Z.to_nat (n_cycles (conf self))) g) as [Ht Hp].
  split; [done|]. split; [done|]. split.
  - intros c Hc. cbv zeta. destruct (Hkeys c Hc) as (_ & Hfake & _).
    unfold cyc_label in Hfake. rewrite Hfake, Hdrawn.
    unfold disc_fake_term, fake_mask.
    by destruct (bool_decide (tape g (pos g + c) mod 2 = 0)%nat).
  - rewrite HD. f_equal. apply fold_left_pointwise. intros c d'.
    unfold D_after_cycle. by rewrite Hdrawn.
Qed.
End update_D_facts.

Lemma update_D_fake_branch_per_cycle_witness :
  ∃ l' ev g',
    CycleGANTrainer.update_D (ex_trainer 2 false false false) ex_batch ex_loss
      "train" ex_rng = Ok (l', ev, g') ∧
    pos g' = 2%nat ∧
    l' !! "D_fake_1cyc"
      = Some (disc_fake_term (ex_trainer 2 false false false) ex_batch
                (Build_cycle_out (ex_branch "org0") (ex_branch "cv0"))
                "cv_fake").
Proof.
  destruct (update_D_fake_branch_per_cycle (ex_trainer 2 false false false)
              ex_batch ex_loss "train" ex_rng
              (Build_cycle_out (ex_branch "org0") (ex_branch "cv0"))
              (Const "0"))
    as (l' & ev & g' & Hrun & _ & Hpos & Hfake & _).
  - reflexivity.
  - reflexivity.
  - exists l', ev, g'. split; [exact Hrun|]. split; [exact Hpos|].
    apply (Hfake 1%nat). simpl. lia.
Defined.

(** C4 as stated fails on "once per step": with two cycles one call of
    [update_D] takes two draws, and here the first cycle scores the
    ["org_fake"] sample and the second the ["cv_fake"] sample. *)
Lemma update_D_draws_twice_with_two_cycles :
  ¬ one_fake_draw_per_step (ex_trainer 2 false false false) ex_batch ex_loss
      "train" ex_rng ∧
  ∃ l' ev g',
    CycleGANTrainer.update_D (ex_trainer 2 false false false) ex_batch ex_loss
      "train" ex_rng = Ok (l', ev, g') ∧
    pos g' = 2%nat ∧
    l' !! "D_fake_0cyc"
      = Some (disc_fake_term (ex_trainer 2 false false false) ex_batch
                (Build_cycle_out (ex_branch "org0") (ex_branch "cv0"))
                "org_fake") ∧
    l' !! "D_fake_1cyc"
      = Some (disc_fake_term (ex_trainer 2 false false false) ex_batch
                (Build_cycle_out (ex_branch "org0") (ex_branch "cv0"))
                "cv_fake").
Proof.
  split.
  - intros H. specialize (H _ _ _ eq_refl). vm_compute in H. discriminate.
  - eexists _, _, _. split; [reflexivity|].
    split; [reflexivity|]. split; vm_compute; reflexivity.
Qed.

Section real_only_acgan.
Import CycleGANTrainer.
Context (self : trainer) (b : batch).

(** C6: with [acgan_flag] and [use_real_only_acgan] set, every cycle
    writes the ["org_fake"] cross-entropy under its own key next to the
    ["real"] and ["cv_fake"] ones, and the total ["D"] grows in each cycle
    by [alpha["acgan"]] times the ["real"] and the ["cv_fake"]
    cross-entropies, then by the weighted fake and real squared-error
    terms: the ["org_fake"] cross-entropy is not among the summands. *)
Theorem update_D_real_only_acgan loss phase g o d :
  forward_cycles self b !! 0%nat = Some o → loss !! "D" = Some d →
  acgan_flag (conf self) = true →
  use_real_only_acgan (conf self) = true →
  ∃ l' ev g',
    update_D self b loss phase g = Ok (l', ev, g') ∧
    (∀ c, (c < Z.to_nat (n_cycles (conf self)))%nat →
       l' !! ("D_ce_org_fake_" +:+ pretty c +:+ "cyc")
         = Some (disc_ce_term self b o "org_fake") ∧
       l' !! ("D_ce_real_" +:+ pretty c +:+ "cyc")
         = Some (disc_ce_term self b o "real") ∧
       l' !! ("D_ce_cv_fake_" +:+ pretty c +:+ "cyc")
         = Some (disc_ce_term self b o "cv_fake")) ∧
    l' !! "D"
      = Some (fold_left
                (fun d c =>
                   Add (Add (Add d (Mul (alpha_acgan (alpha (conf self)))
                                      (disc_ce_term self b o "real")))
                          (Mul (alpha_acgan (alpha (conf self)))
                             (disc_ce_term self b o "cv_fake")))
                     (Add (Mul (alpha_fake (alpha (conf self)))
                             (disc_fake_term self b o
                                (drawn_fake_key (Nat.iter c next_rng g))))
                          (Mul (alpha_real (alpha (conf self)))
                             (disc_real_term self b o))))
                (seq 0 (Z.to_nat (n_cycles (conf self)))) d).
Proof.
  intros Ho Hd Hac Hro.
  destruct (discriminator_loop self b (forward_cycles self b)
              (Z.to_nat (n_cycles (conf self))) o loss d g Ho Hd)
    as (l' & Hrun & HD & Hkeys & _).
  exists l', (if String.eqb phase "train" then step_model l' "D" else []),
    (Nat.iter (Z.to_nat (n_cycles (conf self))) next_rng g).
  split.
  { rewrite update_D_stages.
    unfold calculate_cycle_discriminator_loss, range. rewrite Hrun. simpl.
    by destruct (String.eqb phase "train"). }
  split.
  - intros c Hc. destruct (Hkeys c Hc) as (_ & _ & Hce).
    destruct (Hce Hac) as (Hr & Hof & Hcf). by unfold cyc_label in *.
  - rewrite HD. f_equal. apply fold_left_pointwise. intros c d'.
    unfold D_after_cycle, D_after_acgan. by rewrite Hac, Hro.
Qed.
End real_only_acgan.

Lemma update_D_real_only_acgan_witness :
  ∃ l' ev g' total,
    CycleGANTrainer.update_D (ex_trainer 1 true true false) ex_batch ex_loss
      "train" ex_rng = Ok (l', ev, g') ∧
    l' !! "D_ce_org_fake_0cyc"
      = Some (disc_ce_term (ex_trainer 1 true true false) ex_batch
                (Build_cycle_out (ex_branch "org0") (ex_branch "cv0"))
                "org_fake") ∧
    l' !! "D" = Some total ∧
    occurs_in
      (disc_ce_term (ex_trainer 1 true true false) ex_batch
         (Build_cycle_out (ex_branch "org0") (ex_branch "cv0")) "org_fake")
      total = false ∧
    occurs_in
      (Mul (Const "alpha_acgan")
         (disc_ce_term (ex_trainer 1 true true false) ex_batch
            (Build_cycle_out (ex_branch "org0") (ex_branch "cv0")) "real"))
      total = true ∧
    occurs_in
      (Mul (Const "alpha_acgan")
         (disc_ce_term (ex_trainer 1 true true false) ex_batch
            (Build_cycle_out (ex_branch "org0") (ex_branch "cv0")) "cv_fake"))
      total = true.
Proof.
  destruct (update_D_real_only_acgan (ex_trainer 1 true true false)
              ex_batch ex_loss "train" ex_rng
              (Build_cycle_out (ex_branch "org0") (ex_branch "cv0"))
              (Const "0"))
    as (l' & ev & g' & Hrun & Hkeys & HD).
  - reflexivity.
  - reflexivity.
  - reflexivity.
  - reflexivity.
  - eexists l', ev, g', _. split; [exact Hrun|].
    split; [apply (Hkeys 0%nat); simpl; lia|].
    split; [exact HD|].
    split; [vm_compute; reflexivity|]. split; vm_compute; reflexivity.
Defined.

Section discriminator_samples.
Import CycleGANTrainer.
Context (self : trainer) (b : batch).

(** C2, where the code departs from it: the loop labels its terms with the
    cycle index, yet every cycle takes its fakes from [outputs[0]]; the
    records of the later cycles never reach the discriminator loss. *)
Theorem discriminator_loss_reads_first_cycle_only
    (o : cycle_out) (rest rest' : list cycle_out)
    (loss : gmap string scalar) (g : rng) :
  calculate_cycle_discriminator_loss self b (o :: rest) loss g
  = calculate_cycle_discriminator_loss self b (o :: rest') loss g.
Proof.
  unfold calculate_cycle_discriminator_loss.
  apply for_each_ext. intros c [l g']. reflexivity.
Qed.

Lemma D_after_cycle_detached o fk d :
  detached_setting self b →
  grad_reaches_G d = false →
  grad_reaches_G (D_after_cycle self b o fk d) = false.
Proof.
  intros (Hin & Hfeat & Ha & Hf & Hr & Hoh & Hch) Hd.
  assert (Hout : ∀ k, reaches_G (disc_output self b o k) = false).
  { intros k. unfold disc_output, disc_input, return_sample.
    cbn [reaches_G]. repeat case_match; by apply Hin. }
  assert (Hval : ∀ k, reaches_G (disc_validity self b o k) = false).
  { intros k. unfold disc_validity. case_match; cbn [reaches_G]; apply Hout. }
  assert (Hce : ∀ k, grad_reaches_G (disc_ce_term self b o k) = false).
  { intros k. unfold disc_ce_term. cbn [grad_reaches_G reaches_G].
    rewrite Hout. by case_match. }
  unfold D_after_cycle, D_after_acgan, disc_fake_term, disc_real_term.
  cbn [grad_reaches_G reaches_G].
  rewrite !Hval, Hf, Hr. cbn [orb].
  rewrite orb_false_r.
  destruct (acgan_flag (conf self)); [|done].
  cbn [grad_reaches_G].
  destruct (use_real_only_acgan (conf self)); cbn [grad_reaches_G];
    by rewrite ?Ha, ?Hce, ?Hd.
Qed.

Lemma D_fold_detached o (fk : nat → string) (cs : list nat) d :
  detached_setting self b →
  grad_reaches_G d = false →
  grad_reaches_G
    (fold_left (fun d c => D_after_cycle self b o (fk c) d) cs d) = false.
Proof.
  intros Hset. revert d. induction cs as [|c cs IH]; intros d Hd; simpl;
    [done|].
  apply IH. by apply D_after_cycle_detached.
Qed.

(** The part of C2 that holds: the total ["D"] that [update_D] returns is
    built from detached generator outputs only. *)
Lemma update_D_total_detached loss phase g o d :
  detached_setting self b →
  forward_cycles self b !! 0%nat = Some o → loss !! "D" = Some d →
  grad_reaches_G d = false →
  ∃ l' ev g' d',
    update_D self b loss phase g = Ok (l', ev, g') ∧
    l' !! "D" = Some d' ∧ grad_reaches_G d' = false.
Proof.
  intros Hset Ho HD Hd.
  destruct (discriminator_loop self b (forward_cycles self b)
              (Z.to_nat (n_cycles (conf self))) o loss d g Ho HD)
    as (l' & Hrun & HD' & _).
  exists l', (if String.eqb phase "train" then step_model l' "D" else []),
    (Nat.iter (Z.to_nat (n_cycles (conf self))) next_rng g).
  eexists. split; [|split; [exact HD'|]].
  { rewrite update_D_stages.
    unfold calculate_cycle_discriminator_loss, range. rewrite Hrun. simpl.
    by destruct (String.eqb phase "train"). }
  by apply (D_fold_detached o
              (fun c => drawn_fake_key (Nat.iter c next_rng g))).
Qed.
End discriminator_samples.

(** With two cycles, the fake term labelled for the second cycle is the
    one of the first cycle's record: [org1] and [cv1] are not in it. *)
Example discriminator_second_cycle_scores_first_record :
  ∃ l' g',
    CycleGANTrainer.calculate_cycle_discriminator_loss
      (ex_trainer 2 false false false) ex_batch ex_outputs ex_loss
      {| tape := fun _ => 0%nat; pos := 0 |} = Ok (l', g') ∧
    l' !! "D_fake_1cyc"
      = Some (Criterion "mse"
                (MaskedSelect
                   (CycleGANTrainer.return_sample
                      (Cat (Detach (GOut "org0")) (Input "cond_org")))
                   (Input "cycle_decoder_mask"))
                (ZerosLike
                   (MaskedSelect
                      (CycleGANTrainer.return_sample
                         (Cat (Detach (GOut "org0")) (Input "cond_org")))
                      (Input "cycle_decoder_mask")))).
Proof. eexists _, _. split; [reflexivity|]. vm_compute. reflexivity. Qed.

Section step_gating.
Import CycleGANTrainer.
Context (self : trainer) (b : batch).

(** C5: once the losses of a call are computed, [update_G] returns them
    and steps ["G"] exactly when the phase is ["train"] and
    [stop_generator] is off; [update_D] returns them and steps ["D"]
    exactly when the phase is ["train"], whatever [stop_generator] is.  A
    skipped step returns the same accumulator with an empty trace. *)
Theorem update_step_gating (loss : gmap string scalar) (phase : string)
    (g g' : rng) (lG lD : gmap string scalar) :
  (l1 ← losses_before_adv self b loss phase;
   calculate_cycleadv_loss self b (forward_cycles self b) l1) = Ok lG →
  calculate_cycle_discriminator_loss self b (forward_cycles self b) loss g
    = Ok (lD, g') →
  update_G self b loss phase
    = Ok (lG, if bool_decide (phase = "train" ∧ stop_generator self = false)
              then [StepModel "G" lG] else []) ∧
  update_D self b loss phase g
    = Ok (lD, (if bool_decide (phase = "train")
               then [StepModel "D" lD] else []), g') ∧
  ∀ s, update_D (with_stop_generator s self) b loss phase g
       = update_D self b loss phase g.
Proof.
  intros HG HD. split; [|split].
  - rewrite update_G_stages.
    destruct (losses_before_adv self b loss phase) as [l1|]; [|done].
    simpl in HG |- *. rewrite HG. simpl.
    destruct (String.eqb_spec phase "train") as [->|Hne];
      destruct (stop_generator self); simpl; try done;
      (rewrite bool_decide_eq_false_2; [done|by intros [? ?]]).
  - rewrite update_D_stages, HD. simpl.
    destruct (String.eqb_spec phase "train") as [->|Hne]; simpl; try done.
    by rewrite bool_decide_eq_false_2.
  - intros s. reflexivity.
Qed.

(** An exception of the loss computation leaves [update_G] without a
    step. *)
Lemma update_G_raises (loss : gmap string scalar) (phase : string) (e : exn) :
  (l1 ← losses_before_adv self b loss phase;
   calculate_cycleadv_loss self b (forward_cycles self b) l1) = Raise e →
  update_G self b loss phase = Raise e.
Proof.
  intros H. rewrite update_G_stages.
  destruct (losses_before_adv self b loss phase) as [l1|]; simpl in *.
  - by rewrite H.
  - by injection H as ->.
Qed.
End step_gating.

Lemma update_step_gating_witness :
  ∃ lG lD g',
    CycleGANTrainer.update_G (ex_trainer 2 false false true) ex_batch
      ex_loss "train"
      = Ok (lG, if bool_decide
                     ("train" = "train" ∧
                      stop_generator (ex_trainer 2 false false true) = false)
                then [StepModel "G" lG] else []) ∧
    CycleGANTrainer.update_D (ex_trainer 2 false false true) ex_batch
      ex_loss "train" ex_rng
      = Ok (lD, (if bool_decide ("train" = "train")
                 then [StepModel "D" lD] else []), g') ∧
    ∀ s, CycleGANTrainer.update_D
           (with_stop_generator s (ex_trainer 2 false false true)) ex_batch
           ex_loss "train" ex_rng
         = CycleGANTrainer.update_D (ex_trainer 2 false false true) ex_batch
             ex_loss "train" ex_rng.
Proof.
  eexists _, _, _. apply update_step_gating.
  - reflexivity.
  - reflexivity.
Defined.

(** The same call in the two settings of the freeze flag and in two
    phases. *)
Example update_steps_on_example :
  ∃ lG lD g',
    CycleGANTrainer.update_G (ex_trainer 2 false false true) ex_batch
      ex_loss "train" = Ok (lG, []) ∧
    CycleGANTrainer.update_G (ex_trainer 2 false false false) ex_batch
      ex_loss "train" = Ok (lG, [StepModel "G" lG]) ∧
    CycleGANTrainer.update_G (ex_trainer 2 false false false) ex_batch
      ex_loss "dev" = Ok (lG, []) ∧
    CycleGANTrainer.update_D (ex_trainer 2 false false true) ex_batch
      ex_loss "train" ex_rng = Ok (lD, [StepModel "D" lD], g') ∧
    CycleGANTrainer.update_D (ex_trainer 2 false false false) ex_batch
      ex_loss "dev" ex_rng = Ok (lD, [], g').
Proof.
  eexists _, _, _. split; [reflexivity|].
  repeat split; vm_compute; reflexivity.
Qed.

(** * Further properties of [crank/bin/train.py] *)

Section get_model_more.
Context (conf : model_conf) (spkr_size : Z) (device : string)
        (scaler : option string).

Lemma models_before_D_dom :
  dom (models_before_D conf spkr_size device scaler)
  = {["G"]}
    ∪ (if mc_use_spkradv_training conf then {["SPKRADV"]} else ∅)
    ∪ (if mc_use_spkr_classifier conf then {["C"]} else ∅).
Proof.
  unfold models_before_D.
  destruct (mc_use_spkradv_training conf), (mc_use_spkr_classifier conf);
    rewrite ?dom_insert_L, dom_singleton_L; set_solver.
Qed.

Lemma models_before_D_on_device :
  map_Forall (fun _ n => on_device device n)
    (models_before_D conf spkr_size device scaler).
Proof.
  unfold models_before_D.
  destruct (mc_use_spkradv_training conf), (mc_use_spkr_classifier conf);
    repeat (apply map_Forall_insert_2; [by eexists|]);
    apply map_Forall_empty.
Qed.

Lemma discriminator_call_residual :
  gan_type conf = "lsgan" →
  use_residual_network conf = true →
  discriminator_call conf spkr_size
  = Ok (ResidualParallelWaveGANDiscriminator
          (input_size conf
           + (if use_D_uv conf then 1 else 0)
           + (if use_D_spkrcode conf
              then if use_spkr_embedding conf
                   then spkr_embedding_size conf else spkr_size
              else 0))%Z
          (1 + (if mc_acgan_flag conf then spkr_size else 0))%Z
          (discriminator_kernel_size conf)
          (n_discriminator_layers conf * n_discriminator_stacks conf)%Z
          (n_discriminator_stacks conf)
          (discriminator_dropout conf)).
Proof.
  intros Hg Hr. unfold discriminator_call. rewrite Hg, Hr. simpl.
  destruct (mc_acgan_flag conf), (use_D_uv conf), (use_D_spkrcode conf),
    (use_spkr_embedding conf); simpl; do 2 f_equal; lia.
Qed.

(** X1: when the discriminator is not requested, or it is requested with
    [gan_type] ["lsgan"] and the residual architecture, [get_model]
    returns a collection whose roles are ["G"], ["SPKRADV"] with
    speaker-adversarial training, ["C"] with the speaker classifier and
    ["D"] for the adversarial trainers, and nothing else; every network in
    it was moved to the device. *)
Theorem get_model_roles :
  (trainer_type conf ∈ ["lsgan"; "cyclegan"; "stargan"] →
   gan_type conf = "lsgan" ∧ use_residual_network conf = true) →
  ∃ models,
    get_model conf spkr_size device scaler = Ok models ∧
    dom models
      = {["G"]}
        ∪ (if mc_use_spkradv_training conf then {["SPKRADV"]} else ∅)
        ∪ (if mc_use_spkr_classifier conf then {["C"]} else ∅)
        ∪ (if bool_decide
                (trainer_type conf ∈ ["lsgan"; "cyclegan"; "stargan"])
           then {["D"]} else ∅) ∧
    map_Forall (fun _ n => on_device device n) models.
Proof.
  intros Hgan. rewrite get_model_eq.
  case_bool_decide as Ht.
  - destruct (Hgan Ht) as [Hg Hr].
    rewrite (discriminator_call_residual Hg Hr). simpl.
    eexists. split; [reflexivity|]. split.
    + rewrite dom_insert_L, models_before_D_dom. set_solver.
    + apply map_Forall_insert_2; [by eexists|].
      apply models_before_D_on_device.
  - eexists. split; [reflexivity|]. split.
    + rewrite models_before_D_dom. set_solver.
    + apply models_before_D_on_device.
Qed.

(** X2: with [gan_type] ["lsgan"] and the residual architecture, the
    discriminator takes the input features, one more channel with
    [use_D_uv], and with [use_D_spkrcode] the speaker code (the embedding
    size with [use_spkr_embedding], the number of speakers without); it
    returns one validity channel, and one more per speaker with
    [acgan_flag]; its [layers] is the product of
    [n_discriminator_layers] and [n_discriminator_stacks]. *)
Theorem get_model_discriminator_channels :
  trainer_type conf ∈ ["lsgan"; "cyclegan"; "stargan"] →
  gan_type conf = "lsgan" →
  use_residual_network conf = true →
  ∃ models,
    get_model conf spkr_size device scaler = Ok models ∧
    models !! "D"
    = Some (To (ResidualParallelWaveGANDiscriminator
                  (input_size conf
                   + (if use_D_uv conf then 1 else 0)
                   + (if use_D_spkrcode conf
                      then if use_spkr_embedding conf
                           then spkr_embedding_size conf else spkr_size
                      else 0))%Z
                  (1 + (if mc_acgan_flag conf then spkr_size else 0))%Z
                  (discriminator_kernel_size conf)
                  (n_discriminator_layers conf
                   * n_discriminator_stacks conf)%Z
                  (n_discriminator_stacks conf)
                  (discriminator_dropout conf)) device).
Proof.
  intros Ht Hg Hr. rewrite get_model_eq.
  rewrite bool_decide_eq_true_2 by done.
  rewrite (discriminator_call_residual Hg Hr). simpl.
  eexists. split; [reflexivity|]. by rewrite lookup_insert_eq.
Qed.
End get_model_more.

Lemma get_model_roles_witness :
  ∃ models,
    get_model (ex_model_conf "lsgan" true true) 2 "cuda" None = Ok models ∧
    dom models = {["G"]} ∪ ∅ ∪ {["C"]} ∪ {["D"]} ∧
    map_Forall (fun _ n => on_device "cuda" n) models.
Proof.
  apply (get_model_roles (ex_model_conf "lsgan" true true) 2 "cuda" None).
  intros _. split; reflexivity.
Defined.

Lemma get_model_discriminator_channels_witness :
  ∃ models,
    get_model (ex_model_conf "lsgan" true true) 2 "cuda" None = Ok models ∧
    models !! "D"
    = Some (To (ResidualParallelWaveGANDiscriminator
                  (80 + 1 + 0) (1 + 2) 5 (3 * 2) 2 "0.3") "cuda").
Proof.
  apply (get_model_discriminator_channels
           (ex_model_conf "lsgan" true true) 2 "cuda" None).
  - simpl. apply list_elem_of_further, list_elem_of_here.
  - reflexivity.
  - reflexivity.
Defined.

Section load_checkpoint_more.
Context {P : Type}.
Implicit Types (model : gmap string (module P)) (record : checkpoint_record P).

(** The collection [load_checkpoint] returns, role by role. *)
Lemma load_checkpoint_eq model record g pg :
  model !! "G" = Some g → ckpt_model record !! "G" = Some pg →
  load_checkpoint model record
  = Ok (load_role record "SPKRADV"
          (load_role record "C"
             (load_role record "D" (<["G" := load_state_dict g pg]> model))),
        ckpt_steps record).
Proof.
  intros Hg Hpg. unfold load_checkpoint.
  rewrite (map_getitem_Some _ _ _ Hg), (map_getitem_Some _ _ _ Hpg).
  simpl. rewrite load_role_step. simpl. rewrite load_role_step. simpl.
  by rewrite load_role_step.
Qed.

Lemma load_checkpoint_ok_inv model record model' steps :
  load_checkpoint model record = Ok (model', steps) →
  ∃ g pg, model !! "G" = Some g ∧ ckpt_model record !! "G" = Some pg.
Proof.
  unfold load_checkpoint, map_getitem.
  destruct (model !! "G") as [g|]; [|done].
  destruct (ckpt_model record !! "G") as [pg|]; [|done]. eauto.
Qed.

Lemma load_role_dom record m model :
  dom (load_role record m model) = dom model.
Proof.
  unfold load_role. destruct (model !! m) as [x|] eqn:Hm; [|done].
  destruct (ckpt_model record !! m); [|done].
  apply dom_insert_lookup_L. eauto.
Qed.

Lemma load_role_arch record m model role :
  arch <$> load_role record m model !! role = arch <$> model !! role.
Proof.
  rewrite lookup_load_role. case_decide as Hr; [subst role|done].
  destruct (model !! m); [|done]. by destruct (ckpt_model record !! m).
Qed.

(** X3: loading a checkpoint changes parameters only: the collection
    keeps its roles (a role of the record that the collection lacks is not
    added) and every network keeps its architecture. *)
Theorem load_checkpoint_keeps_roles_and_architectures model record g pg :
  model !! "G" = Some g → ckpt_model record !! "G" = Some pg →
  ∃ model',
    load_checkpoint model record = Ok (model', ckpt_steps record) ∧
    dom model' = dom model ∧
    ∀ role, arch <$> model' !! role = arch <$> model !! role.
Proof.
  intros Hg Hpg. eexists. split; [by apply load_checkpoint_eq|]. split.
  - rewrite !load_role_dom. apply dom_insert_lookup_L. eauto.
  - intros role. rewrite !load_role_arch.
    destruct (decide (role = "G")) as [->|Hne].
    + by rewrite lookup_insert_eq, Hg.
    + by rewrite lookup_insert_ne.
Qed.

(** X4: the only way [load_checkpoint] fails is [KeyError] on ["G"], and
    it fails exactly when the collection or the record lacks ["G"]. *)
Theorem load_checkpoint_fails_iff_no_G model record :
  (load_checkpoint model record = Raise (KeyError "G") ↔
   model !! "G" = None ∨ ckpt_model record !! "G" = None) ∧
  ∀ e, load_checkpoint model record = Raise e → e = KeyError "G".
Proof.
  destruct (model !! "G") as [g|] eqn:Hg;
    [destruct (ckpt_model record !! "G") as [pg|] eqn:Hpg|].
  - rewrite (load_checkpoint_eq _ _ _ _ Hg Hpg). split; [|done].
    split; [done|]. by intros [?|?].
  - rewrite load_checkpoint_needs_G by auto. split; [|by intros e [= <-]].
    split; auto.
  - rewrite load_checkpoint_needs_G by auto. split; [|by intros e [= <-]].
    split; auto.
Qed.

Lemma load_checkpoint_lookup model record g pg role :
  model !! "G" = Some g → ckpt_model record !! "G" = Some pg →
  load_role record "SPKRADV"
    (load_role record "C"
       (load_role record "D" (<["G" := load_state_dict g pg]> model)))
    !! role =
  if bool_decide (role ∈ ["G"; "D"; "C"; "SPKRADV"]) then
    match model !! role, ckpt_model record !! role with
    | Some m, Some p => Some (load_state_dict m p)
    | o, _ => o
    end
  else model !! role.
Proof.
  intros Hg Hpg. rewrite !lookup_load_role.
  destruct (decide (role = "SPKRADV")) as [->|?];
    [by rewrite !lookup_insert_ne by done|].
  destruct (decide (role = "C")) as [->|?];
    [by rewrite !lookup_insert_ne by done|].
  destruct (decide (role = "D")) as [->|?];
    [by rewrite !lookup_insert_ne by done|].
  destruct (decide (role = "G")) as [->|?].
  - by rewrite lookup_insert_eq, Hg, Hpg.
  - rewrite lookup_insert_ne by done.
    rewrite bool_decide_eq_false_2; [done|].
    intros Hin. repeat (apply elem_of_cons in Hin as [->|Hin]; [done|]).
    by apply elem_of_nil in Hin.
Qed.

(** A collection that already holds the record's parameters in the roles
    [load_checkpoint] looks at is returned as it is. *)
Lemma load_checkpoint_fixpoint model record g :
  model !! "G" = Some g →
  is_Some (ckpt_model record !! "G") →
  (∀ role m p, role ∈ ["G"; "D"; "C"; "SPKRADV"] →
     model !! role = Some m →
     ckpt_model record !! role = Some p → state m = p) →
  load_checkpoint model record = Ok (model, ckpt_steps record).
Proof.
  intros Hg [pg Hpg] Hsame.
  assert (Hid : ∀ role, role ∈ ["G"; "D"; "C"; "SPKRADV"] →
            load_role record role model = model).
  { intros role Hrole. unfold load_role.
    destruct (model !! role) as [x|] eqn:Hx; [|done].
    destruct (ckpt_model record !! role) as [p|] eqn:Hp; [|done].
    apply insert_id. rewrite Hx. f_equal.
    rewrite <- (Hsame _ _ _ Hrole Hx Hp). by destruct x. }
  rewrite (load_checkpoint_eq _ _ _ _ Hg Hpg).
  assert (<["G" := load_state_dict g pg]> model = model) as ->.
  { apply insert_id. rewrite Hg. f_equal.
    rewrite <- (Hsame "G" _ _ ltac:(apply list_elem_of_here) Hg Hpg).
    by destruct g. }
  rewrite (Hid "D"), (Hid "C"), (Hid "SPKRADV"); [done|..];
    repeat first [apply list_elem_of_here | apply list_elem_of_further].
Qed.

(** X5: loading the same record a second time changes nothing. *)
Theorem load_checkpoint_idempotent model record model' steps :
  load_checkpoint model record = Ok (model', steps) →
  load_checkpoint model' record = Ok (model', steps).
Proof.
  intros Hload.
  destruct (load_checkpoint_ok_inv _ _ _ _ Hload) as (g & pg & Hg & Hpg).
  rewrite (load_checkpoint_eq _ _ _ _ Hg Hpg) in Hload.
  injection Hload as <- <-.
  apply (load_checkpoint_fixpoint _ _ (load_state_dict g pg)).
  - by rewrite (load_checkpoint_lookup _ _ _ _ _ Hg Hpg), Hg, Hpg.
  - eauto.
  - intros role m p Hrole Hm Hp.
    rewrite (load_checkpoint_lookup _ _ _ _ _ Hg Hpg) in Hm.
    rewrite bool_decide_eq_true_2 in Hm by done. rewrite Hp in Hm.
    destruct (model !! role); by simplify_eq.
Qed.

(** X6: a record that holds, for every role it shares with the
    collection, the parameters the collection already has (a checkpoint
    saved from it) is loaded back without any change. *)
Theorem load_checkpoint_round_trip model record g :
  model !! "G" = Some g →
  is_Some (ckpt_model record !! "G") →
  (∀ role m p, model !! role = Some m →
     ckpt_model record !! role = Some p → state m = p) →
  load_checkpoint model record = Ok (model, ckpt_steps record).
Proof.
  intros Hg Hpg Hsame.
  apply (load_checkpoint_fixpoint _ _ g); [done|done|].
  intros role m p _. apply Hsame.
Qed.
End load_checkpoint_more.

Lemma load_checkpoint_keeps_roles_and_architectures_witness :
  ∃ model',
    load_checkpoint ex_collection ex_record = Ok (model', 2000%Z) ∧
    dom model' = dom ex_collection ∧
    ∀ role, arch <$> model' !! role = arch <$> ex_collection !! role.
Proof.
  apply (load_checkpoint_keeps_roles_and_architectures
           ex_collection ex_record (ex_module "g" 0) 10);
    reflexivity.
Defined.

Lemma load_checkpoint_idempotent_witness :
  load_checkpoint
    (<["G" := load_state_dict (ex_module "g" 0) 10]> ex_collection) ex_record
  = Ok (<["G" := load_state_dict (ex_module "g" 0) 10]> ex_collection,
        2000%Z).
Proof.
  apply (load_checkpoint_idempotent ex_collection ex_record).
  reflexivity.
Defined.

Lemma load_checkpoint_round_trip_witness :
  load_checkpoint ex_collection ex_record_saved
  = Ok (ex_collection, ckpt_steps ex_record_saved).
Proof.
  apply (load_checkpoint_round_trip ex_collection ex_record_saved
           (ex_module "g" 0)).
  - reflexivity.
  - by eexists.
  - intros role m p Hm Hp.
    destruct (decide (role = "G")) as [->|HG];
      [by vm_compute in Hm, Hp; simplify_eq|].
    destruct (decide (role = "D")) as [->|HD];
      [by vm_compute in Hm, Hp; simplify_eq|].
    unfold ex_collection in Hm.
    rewrite lookup_insert_ne in Hm by done.
    by rewrite lookup_singleton_ne in Hm by done.
Defined.

Section main_more.
Context {P : Type} (w : world P) (args : cli_args).

Lemma get_model_has_G conf spkr_size device scaler models :
  get_model conf spkr_size device scaler = Ok models →
  is_Some (models !! "G").
Proof.
  rewrite get_model_eq.
  assert (HG : is_Some (models_before_D conf spkr_size device scaler !! "G")).
  { unfold models_before_D.
    destruct (mc_use_spkradv_training conf), (mc_use_spkr_classifier conf);
      rewrite ?lookup_insert_ne by done; by rewrite lookup_singleton_eq. }
  case_bool_decide; [|by intros [= <-]].
  destruct (discriminator_call conf spkr_size) as [call|]; simpl; [|done].
  destruct (construct call) as [D|]; simpl; [|done].
  intros [= <-]. by rewrite lookup_insert_ne.
Qed.

(** X7: when [get_model] raises, [main] stops there with the same
    exception: the data and the scaler were opened and the model was
    requested, and nothing after it happened (no checkpoint, optimizer,
    dataloader or training run). *)
Theorem main_stops_when_get_model_raises (e : exn) :
  cuda_is_available w = true →
  main_get_model w args = Raise e →
  main w args [] = (setup_events w args, Raise e).
Proof.
  intros Hcuda Hmodel. unfold main, main_get_model, setup_events in *.
  rewrite Hcuda. cbv zeta in *. change (torch_device "cuda") with "cuda".
  rewrite Hmodel.
  by destruct (String.eqb (flag args) "eval"
               && negb (bool_decide (featsscp args = Some "None"))).
Qed.

(** X8: when [get_model] returns a collection, a training run without
    a checkpoint (["--checkpoint None"], a flag other than
    ["reconstruction"] and ["eval"]) never reads a checkpoint: after the
    model is built, [main] creates the optimizer, the criterion, the
    dataloader, the scheduler and the two writers and starts the trainer,
    in this order. *)
Theorem main_fresh_training (nets : gmap string network) :
  cuda_is_available w = true →
  checkpoint args = Some "None" →
  flag args ∉ ["reconstruction"; "eval"] →
  main_get_model w args = Ok nets →
  main w args []
  = ((setup_events w args ++ training_events w args)%list, Ok tt).
Proof.
  intros Hcuda Hckpt Hflag Hmodel.
  assert (HG : is_Some (nets !! "G")) by (by eapply get_model_has_G).
  destruct HG as [netG HG].
  assert (Heval : String.eqb (flag args) "eval" = false).
  { apply String.eqb_neq. intros Hf. apply Hflag. rewrite Hf.
    apply list_elem_of_further, list_elem_of_here. }
  unfold main, main_get_model, setup_events, training_events in *.
  rewrite Hcuda. cbv zeta in *. change (torch_device "cuda") with "cuda".
  rewrite Hmodel, Hckpt, Heval.
  rewrite (bool_decide_eq_true_2 (Some "None" = Some "None")) by done.
  rewrite (bool_decide_eq_false_2 _ Hflag).
  cbv [mbind mret io_bind io_ret emit lift py_assert io_for map_getitem].
  simpl. rewrite lookup_fmap, HG. reflexivity.
Qed.

(** X9: when [get_model] returns a collection, with
    ["--checkpoint None"] and the flag ["reconstruction"] or ["eval"],
    [main] looks for saved checkpoints in the experiment directory; when
    there is none it ends in [ValueError] (the maximum of an empty list)
    right after the listing, before any trainer exists. *)
Theorem main_eval_without_saved_checkpoint (nets : gmap string network) :
  cuda_is_available w = true →
  checkpoint args = Some "None" →
  flag args ∈ ["reconstruction"; "eval"] →
  glob w (path_join (expdir args) (path_stem w (conf_path args)))
    "checkpoint_*steps.pkl" = [] →
  main_get_model w args = Ok nets →
  main w args []
  = ((setup_events w args
      ++ [Glob (path_join (expdir args) (path_stem w (conf_path args)))
            "checkpoint_*steps.pkl"])%list,
     Raise ValueError).
Proof.
  intros Hcuda Hckpt Hflag Hglob Hmodel.
  unfold main, main_get_model, setup_events in *.
  rewrite Hcuda. cbv zeta in *. change (torch_device "cuda") with "cuda".
  rewrite Hmodel, Hckpt, Hglob.
  rewrite (bool_decide_eq_true_2 (Some "None" = Some "None")) by done.
  rewrite (bool_decide_eq_true_2 _ Hflag).
  by destruct (String.eqb (flag args) "eval"
               && negb (bool_decide (featsscp args = Some "None"))).
Qed.

(** X10: the test on the checkpoint argument is [!= "None"] on the
    string, so when [get_model] returns a collection any other value, the
    [None] of an omitted option included, makes [main] read that
    checkpoint first thing after the model is built, whatever the flag;
    when reading it raises, [main] ends there. *)
Theorem main_reads_any_checkpoint_but_None_string
    (nets : gmap string network) :
  cuda_is_available w = true →
  checkpoint args ≠ Some "None" →
  main_get_model w args = Ok nets →
  (∃ tr r,
     main w args []
     = ((setup_events w args ++ TorchLoad (checkpoint args) :: tr)%list,
        r)) ∧
  ∀ e, torch_load w (checkpoint args) = Raise e →
       main w args []
       = ((setup_events w args ++ [TorchLoad (checkpoint args)])%list,
          Raise e).
Proof.
  intros Hcuda Hckpt Hmodel.
  unfold main, main_get_model, setup_events, run_load_checkpoint in *.
  rewrite Hcuda. cbv zeta in *. change (torch_device "cuda") with "cuda".
  rewrite Hmodel.
  rewrite (bool_decide_eq_false_2 _ Hckpt).
  destruct (String.eqb (flag args) "eval"
            && negb (bool_decide (featsscp args = Some "None")));
    (split;
     [destruct (torch_load w (checkpoint args)) as [sd|e] eqn:Hload;
        [destruct (load_checkpoint
                     ((fun n => {| arch := n; state := initial_state w n |})
                        <$> nets) sd)
           as [[model' resume]|e] eqn:Hlc;
           [destruct (model' !! "G") as [g|] eqn:HG|]|]
     |intros e Hload];
     cbv [mbind mret io_bind io_ret emit lift py_assert io_for map_getitem];
     simpl; rewrite ?Hload; simpl; rewrite ?Hlc; simpl; rewrite ?HG; simpl;
     try (eexists _, _); reflexivity).
Qed.
End main_more.

Lemma main_stops_when_get_model_raises_witness :
  main ex_world_wgan (ex_args "train") []
  = (setup_events ex_world_wgan (ex_args "train"),
     Raise (UnboundLocalError "output_channels")).
Proof.
  apply (main_stops_when_get_model_raises ex_world_wgan (ex_args "train")).
  - reflexivity.
  - reflexivity.
Defined.

Lemma main_fresh_training_witness :
  ∃ nets,
    main_get_model (ex_world true) (ex_args "train") = Ok nets ∧
    main (ex_world true) (ex_args "train") []
    = ((setup_events (ex_world true) (ex_args "train")
        ++ training_events (ex_world true) (ex_args "train"))%list, Ok tt).
Proof.
  eexists. split; [reflexivity|].
  eapply (main_fresh_training (ex_world true) (ex_args "train")).
  - reflexivity.
  - reflexivity.
  - simpl. intros Hin.
    repeat (apply elem_of_cons in Hin as [Hin|Hin]; [discriminate|]).
    by apply elem_of_nil in Hin.
  - reflexivity.
Defined.

Lemma main_eval_without_saved_checkpoint_witness :
  ∃ nets,
    main_get_model (ex_world true) (ex_args "eval") = Ok nets ∧
    main (ex_world true) (ex_args "eval") []
    = ((setup_events (ex_world true) (ex_args "eval")
        ++ [Glob "exp/default" "checkpoint_*steps.pkl"])%list,
       Raise ValueError).
Proof.
  eexists. split; [reflexivity|].
  eapply (main_eval_without_saved_checkpoint (ex_world true)
            (ex_args "eval")).
  - reflexivity.
  - reflexivity.
  - simpl. apply list_elem_of_further, list_elem_of_here.
  - reflexivity.
  - reflexivity.
Defined.

Lemma main_reads_any_checkpoint_but_None_string_witness :
  ∃ tr r,
    main (ex_world true) (ex_args_checkpoint "train" None) []
    = ((setup_events (ex_world true) (ex_args_checkpoint "train" None)
        ++ TorchLoad None :: tr)%list, r).
Proof.
  eapply (main_reads_any_checkpoint_but_None_string (ex_world true)
            (ex_args_checkpoint "train" None)).
  - reflexivity.
  - discriminate.
  - reflexivity.
Defined.

(** * Further properties of [CycleGANTrainer] *)

Section cycleadv_more.
Import CycleGANTrainer.
Context (self : trainer) (b : batch) (outputs : list cycle_out).
Implicit Types (l loss : gmap string scalar) (g : scalar) (c n : nat).

(** X11: when [cycle_outputs] holds fewer records than [n_cycles], the
    cyclic adversarial loss runs through the records there are and then
    ends in [IndexError]. *)
Theorem calculate_cycleadv_loss_short_outputs l g :
  (List.length outputs < Z.to_nat (n_cycles (conf self)))%nat →
  l !! "G" = Some g →
  calculate_cycleadv_loss self b outputs l = Raise IndexError.
Proof.
  intros Hlen HG. unfold calculate_cycleadv_loss, range.
  set (n := Z.to_nat (n_cycles (conf self))) in *.
  set (k := List.length outputs) in *.
  replace n with (k + S (n - S k))%nat by lia.
  rewrite seq_app, for_each_app.
  destruct (cycleadv_loop self b outputs k l g ltac:(done) HG)
    as (l' & -> & _).
  simpl. unfold cycleadv_step, getitem.
  by rewrite (lookup_ge_None_2 outputs k) by done.
Qed.

Lemma cycleadv_step_needs_G c o l :
  outputs !! c = Some o → l !! "G" = None →
  cycleadv_step self b outputs (decoder_mask b) c "org" l
  = Raise (KeyError "G").
Proof.
  intros Ho HG. unfold cycleadv_step.
  rewrite (getitem_Some _ _ _ Ho). simpl.
  assert (Hno : ∀ k v, k ≠ "G" → <[k := v]> l !! "G" = None).
  { intros k v Hk. by rewrite lookup_insert_ne. }
  unfold iadd_weighted, lookup_loss, setitem.
  destruct (acgan_flag (conf self)); simpl; by rewrite Hno by key_ne.
Qed.

(** X12: an accumulator without the total ["G"] makes the first
    iteration fail with [KeyError] on ["G"], with and without ACGAN. *)
Theorem calculate_cycleadv_loss_needs_G l o rest :
  l !! "G" = None →
  (0 < n_cycles (conf self))%Z →
  outputs = o :: rest →
  calculate_cycleadv_loss self b outputs l = Raise (KeyError "G").
Proof.
  intros HG Hn Hout. unfold calculate_cycleadv_loss, range.
  destruct (Z.to_nat (n_cycles (conf self))) as [|n] eqn:Hz; [lia|].
  cbn [seq for_each].
  assert (Ho : outputs !! 0%nat = Some o) by (by rewrite Hout).
  by rewrite (cycleadv_step_needs_G 0 o l Ho HG).
Qed.
End cycleadv_more.

Lemma calculate_cycleadv_loss_short_outputs_witness :
  CycleGANTrainer.calculate_cycleadv_loss (ex_trainer 3 false false false)
    ex_batch ex_outputs ex_loss = Raise IndexError.
Proof.
  apply (calculate_cycleadv_loss_short_outputs
           (ex_trainer 3 false false false) ex_batch ex_outputs ex_loss
           (Const "0")).
  - simpl. lia.
  - reflexivity.
Defined.

Lemma calculate_cycleadv_loss_needs_G_witness :
  CycleGANTrainer.calculate_cycleadv_loss (ex_trainer 2 true false false)
    ex_batch ex_outputs {[ "D" := Const "0" ]} = Raise (KeyError "G").
Proof.
  eapply (calculate_cycleadv_loss_needs_G (ex_trainer 2 true false false)
            ex_batch ex_outputs).
  - reflexivity.
  - simpl. lia.
  - reflexivity.
Defined.

Section cycleadv_keys.
Import CycleGANTrainer.
Context (self : trainer) (b : batch) (outputs : list cycle_out).
Implicit Types (l loss : gmap string scalar) (g : scalar) (c n : nat).

Lemma adv_keys_NoDup a c : NoDup (adv_keys a c).
Proof.
  unfold adv_keys. destruct a; simpl;
    repeat (apply NoDup_cons; split;
            [rewrite ?not_elem_of_cons; repeat split;
             try apply not_elem_of_nil; key_ne|]);
    apply NoDup_nil_2.
Qed.

Lemma elem_of_adv_keys_all a n k :
  k ∈ flat_map (adv_keys a) (seq 0 n) →
  ∃ c, (c < n)%nat ∧ k ∈ adv_keys a c.
Proof.
  rewrite list_elem_of_In, in_flat_map. intros (c & Hc & Hk).
  exists c. apply in_seq in Hc. split; [lia|]. by apply list_elem_of_In.
Qed.

Lemma adv_keys_all_NoDup a n : NoDup (flat_map (adv_keys a) (seq 0 n)).
Proof.
  induction n as [|n IH]; [apply NoDup_nil_2|].
  rewrite seq_S, flat_map_app. simpl. rewrite app_nil_r.
  apply NoDup_app. split; [done|]. split; [|apply adv_keys_NoDup].
  intros k Hk. apply elem_of_adv_keys_all in Hk as (c & Hc & Hk).
  apply (adv_keys_disjoint a a c n k); [lia|done].
Qed.

Lemma adv_keys_prefix a c k :
  k ∈ adv_keys a c →
  (∃ s, k = "D_adv_" +:+ s) ∨ (∃ s, k = "D_acgan_adv_" +:+ s).
Proof.
  unfold adv_keys. destruct a; simpl; intros Hk;
    repeat match goal with
    | H : _ ∈ _ :: _ |- _ => apply elem_of_cons in H as [H|H]
    | H : _ ∈ [] |- _ => by apply elem_of_nil in H
    end; subst k; eauto.
Qed.

(** X13: the names written by the cyclic adversarial loss never collide:
    on an accumulator that holds no adversarial entry yet, the loss adds
    exactly two entries per cycle, four with ACGAN. *)
Theorem calculate_cycleadv_loss_adds_fresh_entries l g :
  (Z.to_nat (n_cycles (conf self)) ≤ List.length outputs)%nat →
  l !! "G" = Some g →
  (∀ s, l !! ("D_adv_" +:+ s) = None) →
  (∀ s, l !! ("D_acgan_adv_" +:+ s) = None) →
  ∃ l',
    calculate_cycleadv_loss self b outputs l = Ok l' ∧
    size l' = (size l + (if acgan_flag (conf self) then 4 else 2)
                        * Z.to_nat (n_cycles (conf self)))%nat.
Proof.
  intros Hn HG Hadv Hac.
  destruct (cycleadv_loop self b outputs _ l g Hn HG)
    as (l' & Hrun & _ & _ & _ & Hdom).
  exists l'. split; [done|].
  rewrite <- !size_dom, Hdom, size_union.
  - rewrite size_list_to_set by apply adv_keys_all_NoDup.
    f_equal. generalize (Z.to_nat (n_cycles (conf self))). intros n.
    induction n as [|n IH]; [simpl; lia|].
    rewrite seq_S, flat_map_app, length_app, IH. simpl.
    unfold adv_keys. destruct (acgan_flag (conf self)); simpl; lia.
  - apply elem_of_disjoint. intros k Hk Hk'.
    apply elem_of_dom in Hk as [v Hv].
    apply elem_of_list_to_set, elem_of_adv_keys_all in Hk'
      as (c & _ & Hk').
    apply adv_keys_prefix in Hk' as [[s ->]|[s ->]].
    + by rewrite Hadv in Hv.
    + by rewrite Hac in Hv.
Qed.

(** X14: with [acgan_flag] the loss also stores, under
    ["D_acgan_adv_{c}cyc_{io}"], the ["ce"] criterion of the
    classification channel of the discriminator output against the
    speaker labels of that branch: [org_h] for ["org"], [cv_h] for
    ["cv"]. *)
Theorem calculate_cycleadv_loss_acgan_terms l g :
  (Z.to_nat (n_cycles (conf self)) ≤ List.length outputs)%nat →
  l !! "G" = Some g →
  acgan_flag (conf self) = true →
  ∃ l',
    calculate_cycleadv_loss self b outputs l = Ok l' ∧
    ∀ c o, (c < Z.to_nat (n_cycles (conf self)))%nat →
      outputs !! c = Some o →
      l' !! ("D_acgan_adv_" +:+ pretty c +:+ "cyc_org")
        = Some (Criterion "ce"
                  (Reshape
                     (Split
                        (return_sample
                           (get_D_inputs self b (decoded (out_org o)) "cv"))
                        [1%Z; n_spkrs self] 2 1)
                     [Dim (-1); SizeOf 2])
                  (Reshape (org_h b) [Dim (-1)])) ∧
      l' !! ("D_acgan_adv_" +:+ pretty c +:+ "cyc_cv")
        = Some (Criterion "ce"
                  (Reshape
                     (Split
                        (return_sample
                           (get_D_inputs self b (decoded (out_cv o)) "cv"))
                        [1%Z; n_spkrs self] 2 1)
                     [Dim (-1); SizeOf 2])
                  (Reshape (cv_h b) [Dim (-1)])).
Proof.
  intros Hn HG Hac.
  destruct (cycleadv_loop self b outputs _ l g Hn HG)
    as (l' & Hrun & _ & Hkeys & _).
  exists l'. split; [done|].
  intros c o Hc Ho. destruct (Hkeys c o Hc Ho) as (_ & _ & Hce).
  exact (Hce Hac).
Qed.
End cycleadv_keys.

Lemma calculate_cycleadv_loss_adds_fresh_entries_witness :
  ∃ l',
    CycleGANTrainer.calculate_cycleadv_loss (ex_trainer 2 true false false)
      ex_batch ex_outputs ex_loss = Ok l' ∧
    size l' = (size ex_loss + 4 * 2)%nat.
Proof.
  apply (calculate_cycleadv_loss_adds_fresh_entries
           (ex_trainer 2 true false false) ex_batch ex_outputs ex_loss
           (Const "0")).
  - simpl. lia.
  - reflexivity.
  - intros s. unfold ex_loss.
    rewrite lookup_insert_ne by key_ne. by rewrite lookup_singleton_ne by key_ne.
  - intros s. unfold ex_loss.
    rewrite lookup_insert_ne by key_ne. by rewrite lookup_singleton_ne by key_ne.
Defined.

Lemma calculate_cycleadv_loss_acgan_terms_witness :
  ∃ l',
    CycleGANTrainer.calculate_cycleadv_loss (ex_trainer 2 true false false)
      ex_batch ex_outputs ex_loss = Ok l' ∧
    is_Some (l' !! "D_acgan_adv_1cyc_cv").
Proof.
  destruct (calculate_cycleadv_loss_acgan_terms
              (ex_trainer 2 true false false) ex_batch ex_outputs ex_loss
              (Const "0")) as (l' & Hrun & Hterms).
  - simpl. lia.
  - reflexivity.
  - reflexivity.
  - exists l'. split; [exact Hrun|].
    destruct (Hterms 1%nat
                (Build_cycle_out (ex_branch "org1") (ex_branch "cv1")))
      as [_ Hcv]; [simpl; lia|reflexivity|].
    eexists. exact Hcv.
Defined.

Section cycleadv_gradient.
Import CycleGANTrainer.
Context (self : trainer) (b : batch) (outputs : list cycle_out).
Implicit Types (l loss : gmap string scalar) (g : scalar) (c n : nat).

Lemma adv_term_reaches br :
  (∀ x label, reaches_G x = true →
     reaches_G (get_D_inputs self b x label) = true) →
  reaches_G (decoded br) = true →
  grad_reaches_G (adv_term self b br) = true.
Proof.
  intros Hpass Hbr. unfold adv_term, adv_operand, adv_input, return_sample.
  destruct (acgan_flag (conf self)); cbn [grad_reaches_G reaches_G];
    by rewrite (Hpass _ _ Hbr).
Qed.

Lemma G_after_branch_reaches br h g :
  grad_reaches_G (adv_term self b br) = true →
  grad_reaches_G (G_after_branch self b br h g) = true.
Proof.
  intros H. unfold G_after_branch. cbn [grad_reaches_G].
  by rewrite H, !orb_true_r.
Qed.

(** X15: the adversarial terms of the generator are not detached: when
    the decoded outputs depend on the generator and [get_D_inputs] passes
    its input on, every ["D_adv_..."] term, and the total ["G"], is
    connected to the generator through the compared discriminator output
    itself (the ones target and the mask carry no gradient), so
    backpropagation from it reaches the generator. *)
Theorem calculate_cycleadv_loss_reaches_generator l g :
  (Z.to_nat (n_cycles (conf self)) ≤ List.length outputs)%nat →
  l !! "G" = Some g →
  (∀ x label, reaches_G x = true →
     reaches_G (get_D_inputs self b x label) = true) →
  (∀ c o, outputs !! c = Some o →
     reaches_G (decoded (out_org o)) = true ∧
     reaches_G (decoded (out_cv o)) = true) →
  ∃ l',
    calculate_cycleadv_loss self b outputs l = Ok l' ∧
    (∀ c, (c < Z.to_nat (n_cycles (conf self)))%nat →
       ∃ t_org t_cv,
         l' !! ("D_adv_" +:+ cyc_io_label c "org") = Some t_org ∧
         grad_reaches_G t_org = true ∧
         l' !! ("D_adv_" +:+ cyc_io_label c "cv") = Some t_cv ∧
         grad_reaches_G t_cv = true) ∧
    ((0 < Z.to_nat (n_cycles (conf self)))%nat →
     ∃ total, l' !! "G" = Some total ∧ grad_reaches_G total = true).
Proof.
  intros Hn HG Hpass Hdec.
  destruct (cycleadv_loop self b outputs _ l g Hn HG)
    as (l' & Hrun & HG' & Hkeys & _).
  exists l'. split; [done|]. split.
  - intros c Hc.
    destruct (lookup_lt_is_Some_2 outputs c) as [o Ho]; [lia|].
    destruct (Hkeys c o Hc Ho) as (Ha & Hb & _).
    destruct (Hdec c o Ho) as [Horg Hcv].
    exists (adv_term self b (out_org o)), (adv_term self b (out_cv o)).
    by rewrite Ha, Hb, !adv_term_reaches.
  - intros Hpos. eexists. split; [exact HG'|].
    destruct (Z.to_nat (n_cycles (conf self))) as [|n]; [lia|].
    destruct (lookup_lt_is_Some_2 outputs n) as [o Ho]; [lia|].
    rewrite (take_S_r _ _ _ Ho), fold_left_app.
    cbn [fold_left]. unfold G_after_cycle.
    destruct (Hdec n o Ho) as [_ Hcv].
    by apply G_after_branch_reaches, adv_term_reaches.
Qed.
End cycleadv_gradient.

Lemma calculate_cycleadv_loss_reaches_generator_witness :
  ∃ l',
    CycleGANTrainer.calculate_cycleadv_loss (ex_trainer 2 false false false)
      ex_batch ex_outputs ex_loss = Ok l' ∧
    ∃ total, l' !! "G" = Some total ∧ grad_reaches_G total = true.
Proof.
  destruct (calculate_cycleadv_loss_reaches_generator
              (ex_trainer 2 false false false) ex_batch ex_outputs ex_loss
              (Const "0")) as (l' & Hrun & _ & Htotal).
  - simpl. lia.
  - reflexivity.
  - intros x label Hx. simpl. by rewrite Hx.
  - intros c o Ho.
    destruct c as [|[|c]]; simpl in Ho; [| |done];
      injection Ho as <-; by split.
  - exists l'. split; [exact Hrun|]. apply Htotal. simpl. lia.
Defined.

Section update_D_more.
Import CycleGANTrainer.
Context (self : trainer) (b : batch).
Implicit Types (l loss : gmap string scalar) (phase : string) (g : rng).

Lemma update_D_run loss phase g o d :
  forward_cycles self b !! 0%nat = Some o → loss !! "D" = Some d →
  ∃ l',
    update_D self b loss phase g
    = Ok (l', (if String.eqb phase "train" then step_model l' "D" else []),
          Nat.iter (Z.to_nat (n_cycles (conf self))) next_rng g) ∧
    l' !! "D"
      = Some (fold_left
                (fun d c =>
                   D_after_cycle self b o
                     (drawn_fake_key (Nat.iter c next_rng g)) d)
                (seq 0 (Z.to_nat (n_cycles (conf self)))) d) ∧
    (∀ c, (c < Z.to_nat (n_cycles (conf self)))%nat →
       l' !! ("D_real_" +:+ cyc_label c) = Some (disc_real_term self b o) ∧
       l' !! ("D_fake_" +:+ cyc_label c)
         = Some (disc_fake_term self b o
                   (drawn_fake_key (Nat.iter c next_rng g))) ∧
       (acgan_flag (conf self) = true →
        l' !! ("D_ce_real_" +:+ cyc_label c)
          = Some (disc_ce_term self b o "real") ∧
        l' !! ("D_ce_org_fake_" +:+ cyc_label c)
          = Some (disc_ce_term self b o "org_fake") ∧
        l' !! ("D_ce_cv_fake_" +:+ cyc_label c)
          = Some (disc_ce_term self b o "cv_fake"))) ∧
    (∀ k, k ≠ "D" →
       (∀ c, (c < Z.to_nat (n_cycles (conf self)))%nat →
          k ∉ disc_keys (acgan_flag (conf self)) c) →
       l' !! k = loss !! k).
Proof.
  intros Ho HD.
  destruct (discriminator_loop self b (forward_cycles self b)
              (Z.to_nat (n_cycles (conf self))) o loss d g Ho HD)
    as (l' & Hrun & Hrest).
  exists l'. split; [|exact Hrest].
  rewrite update_D_stages.
  unfold calculate_cycle_discriminator_loss, range. rewrite Hrun. simpl.
  by destruct (String.eqb phase "train").
Qed.

Lemma disc_terms_detached o :
  detached_setting self b →
  grad_reaches_G (disc_real_term self b o) = false ∧
  (∀ fk, grad_reaches_G (disc_fake_term self b o fk) = false) ∧
  (∀ k, grad_reaches_G (disc_ce_term self b o k) = false).
Proof.
  intros (Hin & Hfeat & Ha & Hf & Hr & Hoh & Hch).
  assert (Hout : ∀ k, reaches_G (disc_output self b o k) = false).
  { intros k. unfold disc_output, disc_input, return_sample.
    cbn [reaches_G]. repeat case_match; by apply Hin. }
  assert (Hval : ∀ k, reaches_G (disc_validity self b o k) = false).
  { intros k. unfold disc_validity. case_match; cbn [reaches_G]; apply Hout. }
  split; [|split].
  - unfold disc_real_term. cbn [grad_reaches_G reaches_G].
    by rewrite Hval.
  - intros fk. unfold disc_fake_term.
    cbn [grad_reaches_G reaches_G]. by rewrite Hval.
  - intros k. unfold disc_ce_term. cbn [grad_reaches_G reaches_G].
    rewrite Hout. by case_match.
Qed.

(** X16: every term [update_D] writes is cut off from the generator.
    When [get_D_inputs] adds nothing that depends on the generator to a
    tensor that does not, and the input features, the speaker labels, the
    weights and the incoming total ["D"] do not depend on it either, then
    whatever the decoded outputs depend on (the fakes enter detached), no
    entry written for a cycle, nor the total ["D"], lets backpropagation
    reach the generator. *)
Theorem update_D_terms_detached loss phase g o d :
  detached_setting self b →
  forward_cycles self b !! 0%nat = Some o → loss !! "D" = Some d →
  grad_reaches_G d = false →
  ∃ l' ev g',
    update_D self b loss phase g = Ok (l', ev, g') ∧
    (∃ total, l' !! "D" = Some total ∧ grad_reaches_G total = false) ∧
    (∀ c k, (c < Z.to_nat (n_cycles (conf self)))%nat →
       k ∈ disc_keys (acgan_flag (conf self)) c →
       ∃ t, l' !! k = Some t ∧ grad_reaches_G t = false).
Proof.
  intros Hset Ho HD Hd.
  destruct (update_D_run loss phase g o d Ho HD)
    as (l' & Hrun & HD' & Hkeys & _).
  destruct (disc_terms_detached o Hset) as (Hreal & Hfake & Hce).
  eexists l', _, _. split; [exact Hrun|]. split.
  - eexists. split; [exact HD'|].
    by apply (D_fold_detached self b o
                (fun c => drawn_fake_key (Nat.iter c next_rng g))).
  - intros c k Hc Hk. destruct (Hkeys c Hc) as (Hr & Hf & Hac).
    unfold disc_keys in Hk.
    destruct (acgan_flag (conf self)); simpl in Hk;
      [destruct (Hac eq_refl) as (H1 & H2 & H3)|];
      repeat match goal with
             | H : _ ∈ _ :: _ |- _ => apply elem_of_cons in H as [H|H]
             | H : _ ∈ [] |- _ => by apply elem_of_nil in H
             end; subst k; eauto.
Qed.

Lemma generator_keys_not_disc a c s :
  ("G" ∉ disc_keys a c) ∧
  (("D_adv_" +:+ s) ∉ disc_keys a c) ∧
  (("D_acgan_adv_" +:+ s) ∉ disc_keys a c).
Proof.
  unfold disc_keys, cyc_label.
  destruct a; simpl; rewrite ?not_elem_of_cons;
    repeat split; try apply not_elem_of_nil; key_ne.
Qed.

(** X17: [update_D] changes the total ["D"] and the entries of its own
    cycles only: every other entry of the accumulator comes back as it
    went in, among them the total ["G"] and all adversarial entries of
    the generator. *)
Theorem update_D_keeps_other_entries loss phase g o d :
  forward_cycles self b !! 0%nat = Some o → loss !! "D" = Some d →
  ∃ l' ev g',
    update_D self b loss phase g = Ok (l', ev, g') ∧
    (∀ k, k ≠ "D" →
       (∀ c, (c < Z.to_nat (n_cycles (conf self)))%nat →
          k ∉ disc_keys (acgan_flag (conf self)) c) →
       l' !! k = loss !! k) ∧
    l' !! "G" = loss !! "G" ∧
    (∀ s, l' !! ("D_adv_" +:+ s) = loss !! ("D_adv_" +:+ s) ∧
          l' !! ("D_acgan_adv_" +:+ s) = loss !! ("D_acgan_adv_" +:+ s)).
Proof.
  intros Ho HD.
  destruct (update_D_run loss phase g o d Ho HD)
    as (l' & Hrun & _ & _ & Hframe).
  eexists l', _, _. split; [exact Hrun|]. split; [exact Hframe|].
  split; [|intros s; split].
  - apply Hframe; [done|]. intros c _.
    apply (generator_keys_not_disc _ c "").
  - apply Hframe; [key_ne|]. intros c _.
    apply (generator_keys_not_disc _ c s).
  - apply Hframe; [key_ne|]. intros c _.
    apply (generator_keys_not_disc _ c s).
Qed.

(** X18: with [acgan_flag] set and [use_real_only_acgan] off, the
    cross-entropies of all three samples enter the total: each cycle adds
    [alpha["acgan"]] times the ["real"], the ["org_fake"] and the
    ["cv_fake"] term, in this order, before the squared-error terms. *)
Theorem update_D_acgan_all_samples loss phase g o d :
  forward_cycles self b !! 0%nat = Some o → loss !! "D" = Some d →
  acgan_flag (conf self) = true →
  use_real_only_acgan (conf self) = false →
  ∃ l' ev g',
    update_D self b loss phase g = Ok (l', ev, g') ∧
    l' !! "D"
      = Some (fold_left
                (fun d c =>
                   Add (Add (Add (Add d
                                    (Mul (alpha_acgan (alpha (conf self)))
                                       (disc_ce_term self b o "real")))
                               (Mul (alpha_acgan (alpha (conf self)))
                                  (disc_ce_term self b o "org_fake")))
                          (Mul (alpha_acgan (alpha (conf self)))
                             (disc_ce_term self b o "cv_fake")))
                     (Add (Mul (alpha_fake (alpha (conf self)))
                             (disc_fake_term self b o
                                (drawn_fake_key (Nat.iter c next_rng g))))
                          (Mul (alpha_real (alpha (conf self)))
                             (disc_real_term self b o))))
                (seq 0 (Z.to_nat (n_cycles (conf self)))) d).
Proof.
  intros Ho HD Hac Hro.
  destruct (update_D_run loss phase g o d Ho HD) as (l' & Hrun & HD' & _).
  eexists l', _, _. split; [exact Hrun|].
  rewrite HD'. f_equal. apply fold_left_pointwise. intros c d'.
  unfold D_after_cycle, D_after_acgan. by rewrite Hac, Hro.
Qed.

Lemma ce_keys_not_disc (c' : nat) s :
  ("D_ce_" +:+ s) ∉ disc_keys false c'.
Proof.
  unfold disc_keys, cyc_label. simpl. rewrite ?not_elem_of_cons.
  repeat split; try apply not_elem_of_nil; key_ne.
Qed.

(** X19: without [acgan_flag] the discriminator output is used whole:
    the real term of every cycle is the squared error between the output
    for the input features, restricted to [decoder_mask], and ones; no
    ["D_ce_..."] entry is written and the total grows by the weighted fake
    and real terms alone. *)
Theorem update_D_without_acgan loss phase g o d :
  forward_cycles self b !! 0%nat = Some o → loss !! "D" = Some d →
  acgan_flag (conf self) = false →
  ∃ l' ev g',
    update_D self b loss phase g = Ok (l', ev, g') ∧
    (∀ c, (c < Z.to_nat (n_cycles (conf self)))%nat →
       l' !! ("D_real_" +:+ cyc_label c)
       = Some (let x := MaskedSelect
                          (return_sample
                             (get_D_inputs self b (in_feats b) "org"))
                          (decoder_mask b) in
               Criterion "mse" x (OnesLike x))) ∧
    (∀ s, l' !! ("D_ce_" +:+ s) = loss !! ("D_ce_" +:+ s)) ∧
    l' !! "D"
      = Some (fold_left
                (fun d c =>
                   Add d
                     (Add (Mul (alpha_fake (alpha (conf self)))
                             (disc_fake_term self b o
                                (drawn_fake_key (Nat.iter c next_rng g))))
                          (Mul (alpha_real (alpha (conf self)))
                             (disc_real_term self b o))))
                (seq 0 (Z.to_nat (n_cycles (conf self)))) d).
Proof.
  intros Ho HD Hac.
  destruct (update_D_run loss phase g o d Ho HD)
    as (l' & Hrun & HD' & Hkeys & Hframe).
  eexists l', _, _. split; [exact Hrun|]. split; [|split].
  - intros c Hc. destruct (Hkeys c Hc) as (-> & _).
    unfold disc_real_term, disc_validity, disc_output, disc_input.
    by rewrite Hac.
  - intros s. apply Hframe; [key_ne|].
    intros c _. rewrite Hac. by apply ce_keys_not_disc.
  - rewrite HD'. f_equal. apply fold_left_pointwise. intros c d'.
    unfold D_after_cycle, D_after_acgan. by rewrite Hac.
Qed.

(** X20: [update_D] ends in [IndexError] when the forward pass returned
    no record and there is a cycle to run, since every cycle reads
    [outputs[0]]. *)
Theorem update_D_no_outputs loss phase g :
  forward_cycles self b = [] →
  (0 < n_cycles (conf self))%Z →
  update_D self b loss phase g = Raise IndexError.
Proof.
  intros Hout Hn. rewrite update_D_stages, Hout.
  unfold calculate_cycle_discriminator_loss, range.
  destruct (Z.to_nat (n_cycles (conf self))) as [|n] eqn:Hz; [lia|].
  reflexivity.
Qed.

Lemma discriminator_step_needs_D outputs c o l g :
  outputs !! 0%nat = Some o → l !! "D" = None →
  discriminator_step self b outputs c (l, g) = Raise (KeyError "D").
Proof.
  intros Ho HD. unfold discriminator_step.
  rewrite (getitem_Some _ _ _ Ho). simpl.
  assert (Hno : ∀ k v l0, l0 !! "D" = None → k ≠ "D" →
                          <[k := v]> l0 !! "D" = None).
  { intros k v l0 H0 Hk. by rewrite lookup_insert_ne. }
  destruct (acgan_flag (conf self)); simpl.
  - unfold discriminator_acgan_step. simpl.
    rewrite andb_false_r. simpl.
    unfold iadd_weighted, lookup_loss, setitem.
    by rewrite Hno by (done || key_ne).
  - rewrite random_choice_fake_key. simpl.
    unfold drawn_fake_key; case_decide; simpl;
      unfold lookup_loss, setitem;
      by rewrite !Hno by (done || key_ne || (apply Hno; [done|key_ne])).
Qed.

(** X21: [update_D] does not create the total: on an accumulator without
    the entry ["D"] the first cycle fails with [KeyError] on ["D"], with
    and without ACGAN. *)
Theorem update_D_needs_D loss phase g o :
  forward_cycles self b !! 0%nat = Some o →
  loss !! "D" = None →
  (0 < n_cycles (conf self))%Z →
  update_D self b loss phase g = Raise (KeyError "D").
Proof.
  intros Ho HD Hn. rewrite update_D_stages.
  unfold calculate_cycle_discriminator_loss, range.
  destruct (Z.to_nat (n_cycles (conf self))) as [|n] eqn:Hz; [lia|].
  cbn [seq for_each].
  by rewrite (discriminator_step_needs_D _ 0 o loss g Ho HD).
Qed.
End update_D_more.

Lemma ex_detached_setting n acgan real_only stop :
  detached_setting (ex_trainer n acgan real_only stop) ex_batch.
Proof.
  repeat split; try reflexivity.
  intros x label Hx. simpl. by rewrite Hx.
Qed.

Lemma update_D_terms_detached_witness :
  ∃ l' ev g',
    CycleGANTrainer.update_D (ex_trainer 2 true false false) ex_batch ex_loss
      "train" ex_rng = Ok (l', ev, g') ∧
    (∃ total, l' !! "D" = Some total ∧ grad_reaches_G total = false) ∧
    (∃ t, l' !! "D_fake_1cyc" = Some t ∧ grad_reaches_G t = false).
Proof.
  destruct (update_D_terms_detached (ex_trainer 2 true false false)
              ex_batch ex_loss "train" ex_rng
              (Build_cycle_out (ex_branch "org0") (ex_branch "cv0"))
              (Const "0"))
    as (l' & ev & g' & Hrun & Htotal & Hkeys).
  - apply ex_detached_setting.
  - reflexivity.
  - reflexivity.
  - reflexivity.
  - exists l', ev, g'. split; [exact Hrun|]. split; [exact Htotal|].
    apply (Hkeys 1%nat); [simpl; lia|].
    unfold disc_keys. simpl. do 4 apply list_elem_of_further.
    apply list_elem_of_here.
Defined.

Lemma update_D_keeps_other_entries_witness :
  ∃ l' ev g',
    CycleGANTrainer.update_D (ex_trainer 2 true false false) ex_batch
      (<["D_adv_0cyc_org" := Const "x"]> ex_loss) "eval" ex_rng
      = Ok (l', ev, g') ∧
    l' !! "G" = Some (Const "0") ∧
    l' !! "D_adv_0cyc_org" = Some (Const "x").
Proof.
  destruct (update_D_keeps_other_entries (ex_trainer 2 true false false)
              ex_batch (<["D_adv_0cyc_org" := Const "x"]> ex_loss) "eval"
              ex_rng
              (Build_cycle_out (ex_branch "org0") (ex_branch "cv0"))
              (Const "0"))
    as (l' & ev & g' & Hrun & _ & HG & Hadv).
  - reflexivity.
  - reflexivity.
  - exists l', ev, g'. split; [exact Hrun|]. split.
    + rewrite HG. reflexivity.
    + destruct (Hadv "0cyc_org") as [H _].
      change ("D_adv_" +:+ "0cyc_org") with "D_adv_0cyc_org" in H.
      rewrite H. reflexivity.
Defined.

Lemma update_D_acgan_all_samples_witness :
  ∃ l' ev g' total,
    CycleGANTrainer.update_D (ex_trainer 1 true false false) ex_batch ex_loss
      "train" ex_rng = Ok (l', ev, g') ∧
    l' !! "D" = Some total ∧
    occurs_in
      (Mul (Const "alpha_acgan")
         (disc_ce_term (ex_trainer 1 true false false) ex_batch
            (Build_cycle_out (ex_branch "org0") (ex_branch "cv0"))
            "org_fake"))
      total = true.
Proof.
  destruct (update_D_acgan_all_samples (ex_trainer 1 true false false)
              ex_batch ex_loss "train" ex_rng
              (Build_cycle_out (ex_branch "org0") (ex_branch "cv0"))
              (Const "0"))
    as (l' & ev & g' & Hrun & HD).
  - reflexivity.
  - reflexivity.
  - reflexivity.
  - reflexivity.
  - eexists l', ev, g', _. split; [exact Hrun|].
    split; [exact HD|]. vm_compute; reflexivity.
Defined.

Lemma update_D_without_acgan_witness :
  ∃ l' ev g',
    CycleGANTrainer.update_D (ex_trainer 2 false false false) ex_batch
      ex_loss "train" ex_rng = Ok (l', ev, g') ∧
    l' !! "D_ce_real_0cyc" = None ∧
    l' !! "D_real_1cyc"
    = Some (Criterion "mse"
              (MaskedSelect
                 (CycleGANTrainer.return_sample
                    (Cat (Input "in_feats") (Input "cond_org")))
                 (Input "decoder_mask"))
              (OnesLike
                 (MaskedSelect
                    (CycleGANTrainer.return_sample
                       (Cat (Input "in_feats") (Input "cond_org")))
                    (Input "decoder_mask")))).
Proof.
  destruct (update_D_without_acgan (ex_trainer 2 false false false)
              ex_batch ex_loss "train" ex_rng
              (Build_cycle_out (ex_branch "org0") (ex_branch "cv0"))
              (Const "0"))
    as (l' & ev & g' & Hrun & Hreal & Hce & _).
  - reflexivity.
  - reflexivity.
  - reflexivity.
  - exists l', ev, g'. split; [exact Hrun|]. split.
    + specialize (Hce "real_0cyc").
      change ("D_ce_" +:+ "real_0cyc") with "D_ce_real_0cyc" in Hce.
      rewrite Hce. reflexivity.
    + apply (Hreal 1%nat). simpl. lia.
Defined.

Lemma update_D_no_outputs_witness :
  CycleGANTrainer.update_D
    (Build_trainer (conf (ex_trainer 1 false false false)) 4 false
       (get_enc_h (ex_trainer 1 false false false))
       (get_dec_h (ex_trainer 1 false false false))
       (fun _ _ _ _ _ _ _ => [])
       (get_D_inputs (ex_trainer 1 false false false))
       (calculate_vqvae_loss (ex_trainer 1 false false false))
       (calculate_cyclevqvae_loss (ex_trainer 1 false false false))
       (calculate_spkradv_loss (ex_trainer 1 false false false)))
    ex_batch ex_loss "train" ex_rng
  = Raise IndexError.
Proof.
  apply update_D_no_outputs.
  - reflexivity.
  - simpl. lia.
Defined.

Lemma update_D_needs_D_witness :
  CycleGANTrainer.update_D (ex_trainer 2 true false false) ex_batch
    {[ "G" := Const "0" ]} "train" ex_rng
  = Raise (KeyError "D").
Proof.
  apply (update_D_needs_D (ex_trainer 2 true false false) ex_batch
           {[ "G" := Const "0" ]} "train" ex_rng
           (Build_cycle_out (ex_branch "org0") (ex_branch "cv0"))).
  - reflexivity.
  - reflexivity.
  - simpl. lia.
Defined.

Section cycleadv_frame.
Import CycleGANTrainer.
Context (self : trainer) (b : batch) (outputs : list cycle_out).
Implicit Types (l loss : gmap string scalar) (g : scalar) (c n : nat).

Lemma discriminator_keys_not_adv a c s :
  ("D" ∉ adv_keys a c) ∧
  (("D_real_" +:+ s) ∉ adv_keys a c) ∧
  (("D_fake_" +:+ s) ∉ adv_keys a c) ∧
  (("D_ce_" +:+ s) ∉ adv_keys a c).
Proof.
  unfold adv_keys, cyc_io_label.
  destruct a; simpl; rewrite ?not_elem_of_cons;
    repeat split; try apply not_elem_of_nil; key_ne.
Qed.

(** X22: the cyclic adversarial loss changes the total ["G"] and the
    entries of its own cycles only: every other entry comes back as it
    went in, among them the total ["D"] and all entries of the
    discriminator loss. *)
Theorem calculate_cycleadv_loss_keeps_other_entries l g :
  (Z.to_nat (n_cycles (conf self)) ≤ List.length outputs)%nat →
  l !! "G" = Some g →
  ∃ l',
    calculate_cycleadv_loss self b outputs l = Ok l' ∧
    (∀ k, k ≠ "G" →
       (∀ c, (c < Z.to_nat (n_cycles (conf self)))%nat →
          k ∉ adv_keys (acgan_flag (conf self)) c) →
       l' !! k = l !! k) ∧
    l' !! "D" = l !! "D" ∧
    (∀ s, l' !! ("D_real_" +:+ s) = l !! ("D_real_" +:+ s) ∧
          l' !! ("D_fake_" +:+ s) = l !! ("D_fake_" +:+ s) ∧
          l' !! ("D_ce_" +:+ s) = l !! ("D_ce_" +:+ s)).
Proof.
  intros Hn HG.
  destruct (cycleadv_loop self b outputs _ l g Hn HG)
    as (l' & Hrun & _ & _ & Hframe & _).
  exists l'. split; [exact Hrun|]. split; [exact Hframe|].
  split; [|intros s; split; [|split]].
  - apply Hframe; [done|]. intros c _.
    apply (discriminator_keys_not_adv _ c "").
  - apply Hframe; [key_ne|]. intros c _.
    apply (discriminator_keys_not_adv _ c s).
  - apply Hframe; [key_ne|]. intros c _.
    apply (discriminator_keys_not_adv _ c s).
  - apply Hframe; [key_ne|]. intros c _.
    apply (discriminator_keys_not_adv _ c s).
Qed.
End cycleadv_frame.

Lemma calculate_cycleadv_loss_keeps_other_entries_witness :
  ∃ l',
    CycleGANTrainer.calculate_cycleadv_loss (ex_trainer 2 true false false)
      ex_batch ex_outputs (<["D_real_0cyc" := Const "x"]> ex_loss) = Ok l' ∧
    l' !! "D" = Some (Const "0") ∧
    l' !! "D_real_0cyc" = Some (Const "x").
Proof.
  destruct (calculate_cycleadv_loss_keeps_other_entries
              (ex_trainer 2 true false false) ex_batch ex_outputs
              (<["D_real_0cyc" := Const "x"]> ex_loss) (Const "0"))
    as (l' & Hrun & _ & HD & Hrest).
  - simpl. lia.
  - reflexivity.
  - exists l'. split; [exact Hrun|]. split.
    + rewrite HD. reflexivity.
    + destruct (Hrest "0cyc") as [H _].
      change ("D_real_" +:+ "0cyc") with "D_real_0cyc" in H.
      rewrite H. reflexivity.
Defined.

Section update_edges.
Import CycleGANTrainer.
Context (self : trainer) (b : batch).
Implicit Types (loss : gmap string scalar) (phase : string) (g : rng).

(** X23: [update_G] reads [cycle_outputs[0]] before any loss is
    computed: when the forward pass returned no record it ends in
    [IndexError], whatever [n_cycles] and the flags are, and none of the
    loss functions is reached. *)
Theorem update_G_no_outputs loss phase :
  forward_cycles self b = [] →
  update_G self b loss phase = Raise IndexError.
Proof.
  intros Hout. rewrite update_G_stages.
  unfold losses_before_adv. by rewrite Hout.
Qed.
End update_edges.

Lemma update_G_no_outputs_witness :
  CycleGANTrainer.update_G
    (Build_trainer (conf (ex_trainer 0 false false false)) 4 false
       (get_enc_h (ex_trainer 0 false false false))
       (get_dec_h (ex_trainer 0 false false false))
       (fun _ _ _ _ _ _ _ => [])
       (get_D_inputs (ex_trainer 0 false false false))
       (calculate_vqvae_loss (ex_trainer 0 false false false))
       (calculate_cyclevqvae_loss (ex_trainer 0 false false false))
       (calculate_spkradv_loss (ex_trainer 0 false false false)))
    ex_batch ex_loss "train"
  = Raise IndexError.
Proof.
  apply update_G_no_outputs. reflexivity.
Defined.
